(** * Ecosoil Insight AKL data-cleaning pipeline (streamlitapp4.py)

    A shallow embedding of the cleaning script: schema validation, the
    row filter, sample-count extraction, period labelling, selection of
    the latest sample per (site, period), normalisation of censored
    values, imputation, and the contamination index.

    Modelling choices.
    - A pandas cell is a [value]: missing ([VNone]), a Python int, a
      float64 or a str.  float64 is IEEE 754 binary64, embedded with the
      Standard Library's [spec_float] operations at precision 53 and
      maximal exponent 1024, so every float operation of the script is
      computed bit for bit.
    - A DataFrame is its list of column labels and its list of rows, a
      row being a finite map from labels to cells.  The row index of the
      script stays unique from [read_excel] on, so a row is identified
      by its position.
    - Strings are sequences of 8-bit characters; digits are the ASCII
      digits.
    - Library code that the script only calls (Python's [float],
      scikit-learn's imputer, the plotting and Kolmogorov-Smirnov report,
      pandas' ordering of group keys) is a field of [Externals].
    - The script runs inside [try ... except Exception]; a run ends by
      [st.stop()], by an exception, or by offering the download. *)

From Stdlib Require Import ZArith String Ascii Bool Lia.
From Stdlib Require Import Floats.SpecFloat.
From stdpp Require Import base option list sorting gmap strings.

Open Scope Z_scope.

(** ** float64 *)

Module F64.

Definition prec : Z := 53.
Definition emax : Z := 1024.

Definition of_Z (z : Z) : spec_float := binary_normalize prec emax z 0 false.

Definition add : spec_float -> spec_float -> spec_float := SFadd prec emax.
Definition mul : spec_float -> spec_float -> spec_float := SFmul prec emax.
Definition div : spec_float -> spec_float -> spec_float := SFdiv prec emax.
Definition leb : spec_float -> spec_float -> bool := SFleb.
Definition ltb : spec_float -> spec_float -> bool := SFltb.

Definition is_nan (x : spec_float) : bool :=
  match x with S754_nan => true | _ => false end.

(** The float64 nearest to the decimal [n / 10^k]: the value Python
    gives to a decimal literal such as [6.2] or [17.95]. *)
Definition decimal (n : positive) (k : nat) : spec_float :=
  div (S754_finite false n 0) (S754_finite false (Z.to_pos (10 ^ Z.of_nat k)) 0).

(** [np.rint]: the nearest integer, ties to the even one. *)
Definition rint (x : spec_float) : spec_float :=
  match x with
  | S754_finite s m e =>
      if 0 <=? e then x
      else
        let d := 2 ^ (- e) in
        let q := Z.pos m / d in
        let r := Z.pos m mod d in
        let n := match 2 * r ?= d with
                 | Lt => q
                 | Gt => q + 1
                 | Eq => if Z.even q then q else q + 1
                 end in
        binary_normalize prec emax (if s then - n else n) 0 s
  | _ => x
  end.

(** [np.round(x, 2)], which numpy computes as [rint(x * 100) / 100]. *)
Definition round2 (x : spec_float) : spec_float :=
  div (rint (mul x (of_Z 100))) (of_Z 100).

(** Sum of a row, left to right, as numpy reduces a short axis. *)
Definition sum (l : list spec_float) : spec_float :=
  match l with
  | [] => of_Z 0
  | x :: l' => foldl add x l'
  end.

(** pandas' [mean] with [skipna=True]: missing entries count as 0 in
    the sum and are left out of the count. *)
Definition nanmean (l : list spec_float) : spec_float :=
  let filled := (fun x => if is_nan x then of_Z 0 else x) <$> l in
  let count := length (filter (fun x => is_nan x = false) l) in
  div (sum filled) (of_Z (Z.of_nat count)).

End F64.

(** ** Cells, rows and frames *)

Inductive value :=
| VNone
| VInt (z : Z)
| VFloat (f : spec_float)
| VStr (s : string).

Global Instance spec_float_eq_dec : EqDecision spec_float.
Proof. solve_decision. Defined.

Global Instance value_eq_dec : EqDecision value.
Proof. solve_decision. Defined.

(** [pd.isna] on a cell. *)
Definition isna (v : value) : bool :=
  match v with
  | VNone => true
  | VFloat f => F64.is_nan f
  | _ => false
  end.

Record DataFrame := mkDF {
  columns : list string;
  rows : list (gmap string value)
}.

(** The cell of a row under a label; a label the row lacks reads as NaN. *)
Definition cell (r : gmap string value) (c : string) : value :=
  default (VFloat S754_nan) (r !! c).

(** [df[c]] as the list of its cells. *)
Definition get_column (df : DataFrame) (c : string) : list value :=
  (fun r => cell r c) <$> rows df.

(** [df[c] = vals]: a new label goes last. *)
Definition set_column (df : DataFrame) (c : string) (vals : list value) : DataFrame :=
  {| columns := if bool_decide (c ∈ columns df) then columns df else columns df ++ [c];
     rows := zip_with (fun r v => <[c := v]> r) (rows df) vals |}.

(** ** Period labels (lines 60-70) *)

Definition period_labels : list string :=
  ["1995-2000"; "2008-2012"; "2013-2017"; "2018-2023"]%string.

(** [np.select] at one row: the choice of the first condition that holds. *)
Fixpoint np_select {A} (condlist : list bool) (choicelist : list A) (default : A) : A :=
  match condlist, choicelist with
  | c :: cs, x :: xs => if c then x else np_select cs xs default
  | _, _ => default
  end.

(** The four conditions at one row, given the two comparisons of its year. *)
Definition conditions (ge le : Z -> bool) : list bool :=
  [ ge 1995 && le 2000;
    ge 2008 && le 2012;
    ge 2013 && le 2017;
    ge 2018 && le 2023 ].

Definition period_of_year (y : Z) : string :=
  np_select (conditions (fun n => n <=? y) (fun n => y <=? n)) period_labels "Unknown"%string.

(** The label of a cell of the Year column.  An int compares as an
    integer, a float as a float (NaN fails every comparison); comparing
    a str or None with an int raises TypeError. *)
Definition period_of_cell (v : value) : option string :=
  match v with
  | VInt y => Some (period_of_year y)
  | VFloat f =>
      Some (np_select (conditions (fun n => F64.leb (F64.of_Z n) f)
                                  (fun n => F64.leb f (F64.of_Z n)))
                      period_labels "Unknown"%string)
  | _ => None
  end.

(** ** Contamination class (lines 130-136) *)

Definition classify_ici (ici : spec_float) : string :=
  if F64.leb ici (F64.of_Z 1) then "Low Contamination"%string
  else if F64.ltb (F64.of_Z 1) ici && F64.leb ici (F64.of_Z 3) then "Moderate Contamination"%string
  else "High Contamination"%string.

(** ** Exceptions and the outcome of a run *)

Inductive exn :=
| KeyError (labels : list string)
| ValueError (what : string)
| TypeError (what : string)
| AttributeError (what : string)
| LibraryError (what : string).

Inductive result (A : Type) :=
| Ok (a : A)
| Raise (e : exn).
Arguments Ok {A} a.
Arguments Raise {A} e.

Global Instance result_ret : MRet result := @Ok.
Global Instance result_bind : MBind result :=
  fun A B f m => match m with Ok a => f a | Raise e => Raise e end.

(** [f] on every element, left to right, stopping at the first exception. *)
Fixpoint traverse {A B} (f : A -> result B) (l : list A) : result (list B) :=
  match l with
  | [] => Ok []
  | x :: l' => y ← f x; ys ← traverse f l'; Ok (y :: ys)
  end.

(** ** Python string operations used by the script *)

Definition startswith_lt (s : string) : bool :=
  match s with
  | String c _ => Ascii.eqb c "<"
  | EmptyString => false
  end.

(** [s[1:]] *)
Definition tail_str (s : string) : string :=
  match s with
  | String _ s' => s'
  | EmptyString => EmptyString
  end.

Fixpoint contains_lt (s : string) : bool :=
  match s with
  | String c s' => Ascii.eqb c "<" || contains_lt s'
  | EmptyString => false
  end.

Definition is_digit (c : ascii) : bool :=
  (48 <=? nat_of_ascii c)%nat && (nat_of_ascii c <=? 57)%nat.

Definition digit_val (c : ascii) : Z := Z.of_nat (nat_of_ascii c) - 48.

(** [\d{2}$] at the start of [s]: two digits, then the end of the string
    or a single final newline. *)
Definition match_two_digits_end (s : string) : option (ascii * ascii) :=
  match s with
  | String d1 (String d2 rest) =>
      if is_digit d1 && is_digit d2 &&
         (bool_decide (rest = EmptyString) || bool_decide (rest = String "010" EmptyString))
      then Some (d1, d2) else None
  | _ => None
  end.

(** [re.search(r'-(\d{2})$', s)]: the group of the leftmost match. *)
Fixpoint re_search_suffix (s : string) : option (ascii * ascii) :=
  match s with
  | EmptyString => None
  | String c rest =>
      match (if Ascii.eqb c "-" then match_two_digits_end rest else None) with
      | Some g => Some g
      | None => re_search_suffix rest
      end
  end.

(** [repr] of a list of plain strings, as an f-string prints it. *)
Definition py_repr_list (l : list string) : string :=
  ("[" ++ String.concat ", " ((fun s => "'" ++ s ++ "'") <$> l) ++ "]")%string.

(** ** Schema validation (lines 31-36) *)

Definition critical_columns : list string :=
  ["pH"; "TC %"; "TN %"; "Olsen P"; "AMN"; "BD"]%string.

Definition missing_critical (df : DataFrame) : list string :=
  filter (fun col => col ∉ columns df) critical_columns.

Definition schema_message (missing : list string) : string :=
  ("The following critical columns are missing: " ++ py_repr_list missing)%string.

(** ** Row filter (lines 38-51) *)

(** [df.dropna(subset=subset, how='any')]; a label of [subset] that is
    not a column raises KeyError. *)
Definition dropna (subset : list string) (df : DataFrame) : result DataFrame :=
  match filter (fun c => c ∉ columns df) subset with
  | [] =>
      Ok {| columns := columns df;
            rows := filter (fun r => forallb (fun c => negb (isna (cell r c))) subset = true)
                           (rows df) |}
  | absent => Raise (KeyError absent)
  end.

(** Rows already seen are dropped; the first occurrence stays.  Cells
    are compared structurally. *)
Fixpoint drop_seen (seen : list (gmap string value)) (l : list (gmap string value))
  : list (gmap string value) :=
  match l with
  | [] => []
  | r :: l' =>
      if bool_decide (r ∈ seen) then drop_seen seen l'
      else r :: drop_seen (r :: seen) l'
  end.

Definition drop_duplicates (df : DataFrame) : DataFrame :=
  {| columns := columns df; rows := drop_seen [] (rows df) |}.

(** [df.duplicated()]: a row is marked when an earlier row equals it. *)
Fixpoint duplicated_from (seen : list (gmap string value)) (l : list (gmap string value))
  : list bool :=
  match l with
  | [] => []
  | r :: l' =>
      if bool_decide (r ∈ seen) then true :: duplicated_from seen l'
      else false :: duplicated_from (r :: seen) l'
  end.

(** [duplicates = df.duplicated().sum()] of line 45. *)
Definition duplicates (df : DataFrame) : nat :=
  length (filter (fun b => b = true) (duplicated_from [] (rows df))).

(** ** Sample count (lines 53-57) *)

(** [.str.extract(r'-(\d{2})$').astype(int)] on one column.  The [.str]
    accessor refuses a column without any string; a cell without a match
    extracts to NaN, which [astype(int)] refuses. *)
Definition sample_count_of_cell (v : value) : result value :=
  match v with
  | VStr s =>
      match re_search_suffix s with
      | Some (d1, d2) => Ok (VInt (10 * digit_val d1 + digit_val d2))
      | None => Raise (ValueError "cannot convert float NaN to integer")
      end
  | _ => Raise (ValueError "cannot convert float NaN to integer")
  end.

Definition is_str (v : value) : bool :=
  match v with VStr _ => true | _ => false end.

Definition extract_sample_count (col : list value) : result (list value) :=
  match col with
  | _ :: _ =>
      if existsb is_str col then traverse sample_count_of_cell col
      else Raise (AttributeError "Can only use .str accessor with string values!")
  | [] => Ok []
  end.

(** ** Period column (lines 59-70) *)

Definition assign_period (col : list value) : result (list value) :=
  traverse (fun v => match period_of_cell v with
                     | Some p => Ok (VStr p)
                     | None => Raise (TypeError "'>=' not supported between instances")
                     end) col.

(** ** Latest sample per (site, period) (lines 72-76) *)

Section groupby_idxmax.
Context {A K : Type} `{EqDecision K}.
Variable key : A -> option K.
Variable measure : A -> Z.
Variable key_leb : K -> K -> bool.

(** The keys of the groups: rows with a missing key belong to no group
    ([dropna=True]); the keys come out sorted ([sort=True]). *)
Definition group_keys (l : list A) : list K :=
  merge_sort (fun a b => Is_true (key_leb a b)) (remove_dups (omap key l)).

(** The largest measure in the group of [k]. *)
Definition group_max (k : K) (l : list A) : option Z :=
  match measure <$> filter (fun x => key x = Some k) l with
  | [] => None
  | m :: ms => Some (foldl Z.max m ms)
  end.

(** [idxmax] of the group of [k]: the position of the first row of the
    group that reaches the largest measure. *)
Definition idxmax (k : K) (l : list A) : option nat :=
  m ← group_max k l;
  fst <$> list_find (fun x => key x = Some k ∧ measure x = m) l.

(** [df.loc[df.groupby(key)[measure].idxmax()]] *)
Definition select_idxmax (l : list A) : list A :=
  omap (fun k => i ← idxmax k l; l !! i) (group_keys l).

End groupby_idxmax.

(** The group key of a row: its 'Site Num' and 'Period' cells. *)
Definition site_period (r : gmap string value) : option (value * value) :=
  let s := cell r "Site Num" in
  let p := cell r "Period" in
  if isna s || isna p then None else Some (s, p).

Definition int_of_cell (v : value) : Z :=
  match v with VInt z => z | _ => 0 end.

Definition is_int (v : value) : bool :=
  match v with VInt _ => true | _ => false end.

Definition sample_count (r : gmap string value) : Z :=
  int_of_cell (cell r "Sample Count").

(** The stage on a frame that has the three columns.  'Sample Count' is
    the int column of line 55; a 'Sample Count' column of another kind
    can only come with the upload, when 'Site No.1' is absent, and such
    a run is ended by an exception here or at line 93 at the latest. *)
Definition keep_latest (key_leb : value * value -> value * value -> bool)
    (df : DataFrame) : result DataFrame :=
  if bool_decide ("Sample Count"%string ∈ columns df) then
    if forallb is_int (get_column df "Sample Count") then
      Ok {| columns := columns df;
            rows := select_idxmax site_period sample_count key_leb (rows df) |}
    else Raise (TypeError "Sample Count is not an integer column")
  else Raise (KeyError ["Sample Count"%string]).

(** ** Censored values (lines 78-81) *)

(** [str(x)] holds the marker only when [x] is a str that holds it: the
    text of a number or of a missing value has none. *)
Definition str_contains_lt (v : value) : bool :=
  match v with VStr s => contains_lt s | _ => false end.

Definition columns_with_less_than (df : DataFrame) : list string :=
  filter (fun col => existsb str_contains_lt (get_column df col) = true) (columns df).

(** The lambda of line 81; [float] raises ValueError on text it cannot
    read.  pandas then infers the dtype of the new column: an int left
    among floats is stored as the float of the same value, which is what
    [to_float] reads from it. *)
Definition halve_censored (py_float : string -> option spec_float) (x : value) : result value :=
  match x with
  | VStr s =>
      if startswith_lt s then
        match py_float (tail_str s) with
        | Some f => Ok (VFloat (F64.div f (F64.of_Z 2)))
        | None => Raise (ValueError "could not convert string to float")
        end
      else Ok x
  | _ => Ok x
  end.

Fixpoint replace_less_than (py_float : string -> option spec_float)
    (cols : list string) (df : DataFrame) : result DataFrame :=
  match cols with
  | [] => Ok df
  | column :: cols' =>
      vals ← traverse (halve_censored py_float) (get_column df column);
      replace_less_than py_float cols' (set_column df column vals)
  end.

Definition normalize_censored (py_float : string -> option spec_float)
    (df : DataFrame) : result DataFrame :=
  replace_less_than py_float (columns_with_less_than df) df.

(** ** Imputation and reattachment (lines 83-93) *)

Definition non_predictive_columns : list string :=
  ["Site No.1"; "Site Num"; "Year"; "Sample Count"; "Period"]%string.

Definition is_number (v : value) : bool :=
  match v with VInt _ | VFloat _ => true | _ => false end.

(** The columns left by [drop(..., errors='ignore')] whose cells are all
    numbers. *)
Definition numerical_columns (df : DataFrame) : list string :=
  filter (fun c => (c ∉ non_predictive_columns) ∧ (forallb is_number (get_column df c) = true))
         (columns df).

Definition to_float (v : value) : spec_float :=
  match v with
  | VInt z => F64.of_Z z
  | VFloat f => f
  | _ => S754_nan
  end.

(** The float array handed to the imputer. *)
Definition numeric_block (df : DataFrame) (cols : list string) : list (list spec_float) :=
  (fun r => (fun c => to_float (cell r c)) <$> cols) <$> rows df.

(** [pd.DataFrame(data, columns=cols)] *)
Definition frame_of_array (data : list (list spec_float)) (cols : list string)
  : result DataFrame :=
  if forallb (fun row => (length row =? length cols)%nat) data then
    Ok {| columns := cols;
          rows := (fun row => list_to_map (zip cols (VFloat <$> row))) <$> data |}
  else Raise (ValueError "Shape of passed values does not match the columns").

Definition restrict_row (labels : list string) (r : gmap string value) : gmap string value :=
  filter (fun kv => kv.1 ∈ labels) r.

(** [df[labels]] with a list of labels. *)
Definition select_columns (labels : list string) (df : DataFrame) : result DataFrame :=
  match filter (fun c => c ∉ columns df) labels with
  | [] =>
      Ok {| columns := labels;
            rows := restrict_row labels <$> rows df |}
  | absent => Raise (KeyError absent)
  end.

(** Rows joined by position; where one frame is shorter its cells are
    missing. *)
Fixpoint concat_rows (l1 l2 : list (gmap string value)) : list (gmap string value) :=
  match l1, l2 with
  | r1 :: l1', r2 :: l2' => (r1 ∪ r2) :: concat_rows l1' l2'
  | [], l => l
  | l, [] => l
  end.

(** [pd.concat([a, b], axis=1)] of two frames indexed 0, 1, 2, ... *)
Definition concat_axis1 (a b : DataFrame) : DataFrame :=
  {| columns := columns a ++ columns b; rows := concat_rows (rows a) (rows b) |}.

(** ** Columns of the before/after report (lines 96-97) *)

Definition columns_imputed (df df_final : DataFrame) : list string :=
  filter (fun col => (col ∈ columns df) /\ (col ∈ columns df_final))
         ["MP-10"; "As"; "Cd"; "Cr"; "Cu"; "Ni"; "Pb"; "Zn"]%string.

(** ** Contamination index (lines 119-138) *)

Definition native_means : list (string * spec_float) :=
  [ ("As", F64.decimal 62 1); ("Cd", F64.decimal 375 3); ("Cr", F64.decimal 285 1);
    ("Cu", F64.decimal 230 1); ("Ni", F64.decimal 1795 2); ("Pb", F64.decimal 330 1);
    ("Zn", F64.decimal 945 1) ]%string.

Definition ci_label (element : string) : string := ("CI_" ++ element)%string.

Definition ci_columns : list string := (fun em => ci_label em.1) <$> native_means.

(** One cell of [(df_final[element] / mean_value).round(2)]. *)
Definition ratio_cell (mean_value : spec_float) (v : value) : result value :=
  match v with
  | VFloat f => Ok (VFloat (F64.round2 (F64.div f mean_value)))
  | VInt z => Ok (VFloat (F64.round2 (F64.div (F64.of_Z z) mean_value)))
  | _ => Raise (TypeError "unsupported operand type(s) for /")
  end.

Fixpoint add_ratios (means : list (string * spec_float)) (df : DataFrame) : result DataFrame :=
  match means with
  | [] => Ok df
  | (element, mean_value) :: means' =>
      if bool_decide (element ∈ columns df) then
        vals ← traverse (ratio_cell mean_value) (get_column df element);
        add_ratios means' (set_column df (ci_label element) vals)
      else Raise (KeyError [element])
  end.

(** [df_final[ci_columns].mean(axis=1).round(2)] at one row. *)
Definition row_ici (r : gmap string value) : spec_float :=
  F64.round2 (F64.nanmean ((fun c => to_float (cell r c)) <$> ci_columns)).

Definition contamination_index (df_final : DataFrame) : result DataFrame :=
  df1 ← add_ratios native_means df_final;
  let df2 := set_column df1 "ICI" ((fun r => VFloat (row_ici r)) <$> rows df1) in
  Ok (set_column df2 "ICI_Class"
        ((fun r => VStr (classify_ici (to_float (cell r "ICI")))) <$> rows df2)).

(** ** The script (lines 18-156) *)

(** What the script takes from its libraries and from the user's
    environment:
    - [py_float]: Python's [float] on a str, [None] for ValueError;
    - [key_leb]: the order in which pandas sorts the group keys;
    - [fit_transform]: [IterativeImputer(max_iter=10, random_state=0)]
      on a float array, [None] when scikit-learn raises;
    - [report_ok]: whether the plots and the Kolmogorov-Smirnov table of
      lines 95-117 go through without an exception. *)
Record Externals := {
  py_float : string -> option spec_float;
  key_leb : value * value -> value * value -> bool;
  fit_transform : list (list spec_float) -> option (list (list spec_float));
  report_ok : DataFrame -> DataFrame -> bool
}.

(** How a run ends: [st.error] followed by [st.stop()], an exception
    caught by [except Exception] and shown by one [st.error], or the
    final frame offered for download. *)
Inductive outcome :=
| Stopped (message : string)
| Crashed (e : exn)
| Finished (df_final : DataFrame).

Record run := mkRun {
  warnings : list string;
  ending : outcome
}.

(** The script as a computation that logs [st.warning]s and may end early. *)
Inductive step (A : Type) :=
| Continue (a : A)
| Stop (message : string)
| Crash (e : exn).
Arguments Continue {A} a.
Arguments Stop {A} message.
Arguments Crash {A} e.

Definition script (A : Type) : Type := list string -> list string * step A.

Global Instance script_ret : MRet script := fun A a ws => (ws, Continue a).
Global Instance script_bind : MBind script :=
  fun A B f m ws =>
    match m ws with
    | (ws', Continue a) => f a ws'
    | (ws', Stop msg) => (ws', Stop msg)
    | (ws', Crash e) => (ws', Crash e)
    end.

Definition st_warning (w : string) : script unit :=
  fun ws => (ws ++ [w], Continue tt).

Definition st_error_stop {A} (message : string) : script A :=
  fun ws => (ws, Stop message).

Definition lift {A} (r : result A) : script A :=
  fun ws => (ws, match r with Ok a => Continue a | Raise e => Crash e end).

Definition validate (df : DataFrame) : script unit :=
  match missing_critical df with
  | [] => mret tt
  | missing => st_error_stop (schema_message missing)
  end.

Definition sample_count_stage (df : DataFrame) : script DataFrame :=
  if bool_decide ("Site No.1"%string ∈ columns df) then
    vals ← lift (extract_sample_count (get_column df "Site No.1"));
    mret (set_column df "Sample Count" vals)
  else
    _ ← st_warning "Column 'Site No.1' is missing. Sample count extraction skipped.";
    mret df.

Definition period_stage (df : DataFrame) : script DataFrame :=
  if bool_decide ("Year"%string ∈ columns df) then
    vals ← lift (assign_period (get_column df "Year"));
    mret (set_column df "Period" vals)
  else
    _ ← st_warning "Column 'Year' is missing. Period assignment skipped.";
    mret df.

Definition latest_stage (ext : Externals) (df : DataFrame) : script DataFrame :=
  if bool_decide ("Site Num"%string ∈ columns df) && bool_decide ("Period"%string ∈ columns df) then
    lift (keep_latest (key_leb ext) df)
  else
    _ ← st_warning "Columns 'Site Num' or 'Period' are missing. Filtering latest samples skipped.";
    mret df.

Definition imputation_stage (ext : Externals) (df : DataFrame) : script DataFrame :=
  let numerical := numerical_columns df in
  imputed_data ← lift (match fit_transform ext (numeric_block df numerical) with
                       | Some data => Ok data
                       | None => Raise (LibraryError "IterativeImputer.fit_transform")
                       end);
  df_imputed ← lift (frame_of_array imputed_data numerical);
  kept ← lift (select_columns non_predictive_columns df);
  mret (concat_axis1 kept df_imputed).

Definition report_stage (ext : Externals) (df df_final : DataFrame) : script unit :=
  lift (if report_ok ext df df_final then Ok tt
        else Raise (LibraryError "plots and Kolmogorov-Smirnov test")).

Definition pipeline (ext : Externals) (remove_duplicates : bool) (df : DataFrame)
  : script DataFrame :=
  _ ← validate df;
  df ← lift (dropna critical_columns df);
  df ← mret (if remove_duplicates then drop_duplicates df else df);
  df ← sample_count_stage df;
  df ← period_stage df;
  df ← latest_stage ext df;
  df ← lift (normalize_censored (py_float ext) df);
  df_final ← imputation_stage ext df;
  _ ← report_stage ext df df_final;
  lift (contamination_index df_final).

Definition run_script (ext : Externals) (remove_duplicates : bool) (df : DataFrame) : run :=
  match pipeline ext remove_duplicates df [] with
  | (ws, Continue df_final) => mkRun ws (Finished df_final)
  | (ws, Stop message) => mkRun ws (Stopped message)
  | (ws, Crash e) => mkRun ws (Crashed e)
  end.

(** ** An instance of the externals, for worked examples *)

(** The text before the first point, and the text after it if any. *)
Fixpoint split_point (s : string) : string * option string :=
  match s with
  | EmptyString => (EmptyString, None)
  | String c s' =>
      if Ascii.eqb c "." then (EmptyString, Some s')
      else let '(a, b) := split_point s' in (String c a, b)
  end.

Fixpoint digits_value (acc : Z) (s : string) : option Z :=
  match s with
  | EmptyString => Some acc
  | String c s' => if is_digit c then digits_value (10 * acc + digit_val c) s' else None
  end.

(** [float] on plain decimal text ([12], [0.2], [.5], [3.]): the float64
    nearest to the decimal.  Other text is refused here, although Python
    reads more (signs, exponents, blanks). *)
Definition float_of_decimal_text (s : string) : option spec_float :=
  let '(ip, fp) := split_point s in
  let fp := default EmptyString fp in
  if bool_decide (ip = EmptyString) && bool_decide (fp = EmptyString) then None
  else
    n ← digits_value 0 (ip ++ fp)%string;
    Some (match n with
          | Z.pos p => F64.decimal p (String.length fp)
          | _ => S754_zero false
          end).

(** Decimal text for [float], group keys left in their order of
    appearance, missing entries imputed by zero, a report that succeeds. *)
Definition plain_externals : Externals :=
  {| py_float := float_of_decimal_text;
     key_leb := fun _ _ => true;
     fit_transform := fun data : list (list spec_float) =>
       Some ((fun row : list spec_float =>
                (fun x => if F64.is_nan x then F64.of_Z 0 else x) <$> row) <$> data);
     report_ok := fun _ _ => true |}.

Definition critical_cells (ph : value) : list (string * value) :=
  [ ("pH", ph); ("TC %", VFloat (F64.decimal 41 1)); ("TN %", VFloat (F64.decimal 3 1));
    ("Olsen P", VInt 20); ("AMN", VInt 100); ("BD", VFloat (F64.decimal 11 1)) ]%string.

(** A row whose seven elements sit at [k] hundredths of their baselines. *)
Definition element_cells (k : Z) : list (string * value) :=
  (fun em => (em.1, VFloat (F64.mul em.2 (F64.div (F64.of_Z k) (F64.of_Z 100))))) <$> native_means.

Definition sample_row (site_no : value) (site_num year : Z) (ph : value) (k : Z)
  : gmap string value :=
  list_to_map ([("Site No.1"%string, site_no); ("Site Num"%string, VInt site_num);
                ("Year"%string, VInt year)] ++ critical_cells ph ++ element_cells k).

Definition sample_columns : list string :=
  ["Site No.1"; "Site Num"; "Year"; "pH"; "TC %"; "TN %"; "Olsen P"; "AMN"; "BD";
   "As"; "Cd"; "Cr"; "Cu"; "Ni"; "Pb"; "Zn"]%string.

(** Two samples of site 7 in 2000, one of site 7 in 2001, one row
    without pH. *)
Definition sample_frame : DataFrame :=
  {| columns := sample_columns;
     rows := [ sample_row (VStr "A7-01") 7 2000 (VFloat (F64.decimal 58 1)) 100;
               sample_row (VStr "A7-02") 7 2000 (VFloat (F64.decimal 59 1)) 301;
               sample_row (VStr "A7-01") 7 2001 (VFloat (F64.decimal 60 1)) 150;
               sample_row (VStr "A9-01") 9 2010 (VFloat S754_nan) 100 ] |}.

(** A frame that has the critical columns but neither 'pH' nor 'BD'. *)
Definition frame_without_ph_bd : DataFrame :=
  {| columns := ["Site No.1"; "TC %"; "TN %"; "Olsen P"; "AMN"]%string;
     rows := [ list_to_map [("Site No.1"%string, VStr "A7-01"); ("TC %"%string, VInt 4)] ] |}.

Definition counted_row (site_no : string) (site_num : value) (count : Z) (period : string)
  : gmap string value :=
  list_to_map [("Site No.1"%string, VStr site_no); ("Site Num"%string, site_num);
               ("Sample Count"%string, VInt count); ("Period"%string, VStr period)].

(** Site 7 has two rows that tie on the largest count in 1995-2000; one
    row has no site number. *)
Definition tied_frame : DataFrame :=
  {| columns := ["Site No.1"; "Site Num"; "Sample Count"; "Period"]%string;
     rows := [ counted_row "A7-02" (VInt 7) 2 "1995-2000";
               counted_row "B7-02" (VInt 7) 2 "1995-2000";
               counted_row "A7-01" (VInt 7) 1 "1995-2000";
               counted_row "A8-05" (VFloat S754_nan) 5 "1995-2000";
               counted_row "A9-01" (VInt 9) 1 "Unknown" ] |}.

(** A 'Cd' column with a censored value, a number typed as text, a text
    that is no number and an int. *)
Definition censored_frame : DataFrame :=
  {| columns := ["Site No.1"; "Cd"; "Pb"]%string;
     rows := [ list_to_map [("Site No.1"%string, VStr "A7-01"); ("Cd"%string, VStr "<0.2");
                            ("Pb"%string, VFloat (F64.decimal 125 1))];
               list_to_map [("Site No.1"%string, VStr "A7-02"); ("Cd"%string, VStr "0.7");
                            ("Pb"%string, VFloat (F64.decimal 140 1))];
               list_to_map [("Site No.1"%string, VStr "A8-01"); ("Cd"%string, VStr "ND");
                            ("Pb"%string, VFloat (F64.decimal 90 1))];
               list_to_map [("Site No.1"%string, VStr "A9-01"); ("Cd"%string, VInt 3);
                            ("Pb"%string, VFloat (F64.decimal 110 1))] ] |}.

(** The seven element columns alone: a row on the baselines and a row at
    3.01 times the baselines. *)
Definition element_frame : DataFrame :=
  {| columns := native_means.*1;
     rows := [ list_to_map (element_cells 100); list_to_map (element_cells 301) ] |}.

(** The sample frame without its 'Year' column. *)
Definition no_year_frame : DataFrame :=
  {| columns := filter (fun c => c <> "Year"%string) sample_columns;
     rows := delete "Year"%string <$> rows sample_frame |}.

(** The sample frame with one identifier that lacks the two-digit suffix. *)
Definition bad_suffix_frame : DataFrame :=
  {| columns := sample_columns;
     rows := [ sample_row (VStr "A7-01") 7 2000 (VFloat (F64.decimal 58 1)) 100;
               sample_row (VStr "A7-2") 7 2001 (VFloat (F64.decimal 59 1)) 100 ] |}.

(** Four rows of which the third and the fourth repeat the first. *)
Definition duplicated_frame : DataFrame :=
  {| columns := ["Site No.1"; "Site Num"; "Sample Count"; "Period"]%string;
     rows := [ counted_row "A7-02" (VInt 7) 2 "1995-2000";
               counted_row "A9-01" (VInt 9) 1 "Unknown";
               counted_row "A7-02" (VInt 7) 2 "1995-2000";
               counted_row "A7-02" (VInt 7) 2 "1995-2000" ] |}.

(** The censored frame as the normalizer leaves it. *)
Definition censored_frame_normalized : DataFrame :=
  {| columns := ["Site No.1"; "Cd"; "Pb"]%string;
     rows := [ list_to_map [("Site No.1"%string, VStr "A7-01");
                            ("Cd"%string, VFloat (F64.decimal 1 1));
                            ("Pb"%string, VFloat (F64.decimal 125 1))];
               list_to_map [("Site No.1"%string, VStr "A7-02"); ("Cd"%string, VStr "0.7");
                            ("Pb"%string, VFloat (F64.decimal 140 1))];
               list_to_map [("Site No.1"%string, VStr "A8-01"); ("Cd"%string, VStr "ND");
                            ("Pb"%string, VFloat (F64.decimal 90 1))];
               list_to_map [("Site No.1"%string, VStr "A9-01"); ("Cd"%string, VInt 3);
                            ("Pb"%string, VFloat (F64.decimal 110 1))] ] |}.

(** A censored value whose limit is not a number. *)
Definition unreadable_frame : DataFrame :=
  {| columns := ["Site No.1"; "Cd"]%string;
     rows := [ list_to_map [("Site No.1"%string, VStr "A7-01"); ("Cd"%string, VStr "<0.2")];
               list_to_map [("Site No.1"%string, VStr "A7-02"); ("Cd"%string, VStr "<n.d.")] ] |}.

(** A frame as it reaches the imputer: the five non-predictive columns,
    a text column and two element columns, one 'Cd' missing. *)
Definition imputation_frame : DataFrame :=
  {| columns := ["Site No.1"; "Site Num"; "Year"; "Sample Count"; "Period";
                 "Land use"; "As"; "Cd"]%string;
     rows := [ list_to_map [("Site No.1"%string, VStr "A7-01"); ("Site Num"%string, VInt 7);
                            ("Year"%string, VInt 2000); ("Sample Count"%string, VInt 1);
                            ("Period"%string, VStr "1995-2000");
                            ("Land use"%string, VStr "Pasture");
                            ("As"%string, VFloat (F64.decimal 62 1));
                            ("Cd"%string, VFloat (F64.decimal 2 1))];
               list_to_map [("Site No.1"%string, VStr "A9-01"); ("Site Num"%string, VInt 9);
                            ("Year"%string, VInt 2010); ("Sample Count"%string, VInt 1);
                            ("Period"%string, VStr "2008-2012");
                            ("Land use"%string, VStr "Forest");
                            ("As"%string, VInt 5);
                            ("Cd"%string, VFloat S754_nan)] ] |}.

(** * Properties *)

(** ** float64 comparisons against the thresholds *)

Lemma of_Z_1 : F64.of_Z 1 = S754_finite false 4503599627370496 (-52).
Proof. vm_compute. reflexivity. Qed.

Lemma of_Z_3 : F64.of_Z 3 = S754_finite false 6755399441055744 (-51).
Proof. vm_compute. reflexivity. Qed.

Lemma finite_compare m1 e1 m2 e2 :
  SFcompare (S754_finite false m1 e1) (S754_finite false m2 e2) =
  Some match e1 ?= e2 with Lt => Lt | Gt => Gt | Eq => (m1 ?= m2)%positive end.
Proof. reflexivity. Qed.

(** Above 3 is neither at most 1 nor at most 3. *)
Lemma above_three x :
  F64.ltb (F64.of_Z 3) x = true ->
  F64.leb x (F64.of_Z 1) = false /\ F64.leb x (F64.of_Z 3) = false.
Proof.
  rewrite of_Z_1, of_Z_3. unfold F64.ltb, F64.leb, SFltb, SFleb.
  destruct x as [s|s| |s m e].
  - cbn [SFcompare]. discriminate.
  - destruct s; cbn [SFcompare]; [discriminate|auto].
  - cbn [SFcompare]. discriminate.
  - destruct s; [cbn [SFcompare]; discriminate|].
    rewrite !finite_compare.
    rewrite (Z.compare_antisym (-51) e), (Pos.compare_antisym 6755399441055744 m).
    destruct (Z.compare_spec (-51) e) as [He|He|He]; cbn [CompOpp].
    + subst e. cbn [Z.compare].
      destruct (6755399441055744 ?= m)%positive.
      all: cbn [CompOpp]; intros; try discriminate; auto.
    + intros _. split; [|reflexivity].
      destruct (Z.compare_spec e (-52)); try lia; reflexivity.
    + discriminate.
Qed.

(** [np.round] gives 0.12, 2.68, 1.0 and 3.01 here, [np.rint] 2.0 and 4.0. *)
Example round2_examples :
  F64.round2 (F64.decimal 125 3) = F64.decimal 12 2
  /\ F64.round2 (F64.decimal 2675 3) = F64.decimal 268 2
  /\ F64.round2 (F64.decimal 1005 3) = F64.of_Z 1
  /\ F64.round2 (F64.decimal 3014 3) = F64.decimal 301 2
  /\ F64.rint (F64.decimal 25 1) = F64.of_Z 2
  /\ F64.rint (F64.decimal 35 1) = F64.of_Z 4.
Proof. repeat split; vm_compute; reflexivity. Qed.

(** ** Contamination class *)

Lemma classify_ici_low ici :
  F64.leb ici (F64.of_Z 1) = true -> classify_ici ici = "Low Contamination"%string.
Proof. unfold classify_ici. intros ->. reflexivity. Qed.

Lemma classify_ici_moderate ici :
  F64.ltb (F64.of_Z 1) ici = true -> F64.leb ici (F64.of_Z 3) = true ->
  classify_ici ici = "Moderate Contamination"%string.
Proof.
  unfold classify_ici. intros H1 H3. rewrite H1, H3.
  destruct (F64.leb ici (F64.of_Z 1)) eqn:Hle; [|reflexivity].
  exfalso. revert H1 Hle. rewrite of_Z_1. unfold F64.ltb, F64.leb, SFltb, SFleb.
  destruct ici as [s|s| |s m e].
  - cbn [SFcompare]. discriminate.
  - destruct s; cbn [SFcompare]; discriminate.
  - cbn [SFcompare]. discriminate.
  - destruct s; [cbn [SFcompare]; discriminate|].
    rewrite !finite_compare.
    rewrite (Z.compare_antisym (-52) e), (Pos.compare_antisym 4503599627370496 m).
    destruct (-52 ?= e); cbn [CompOpp]; try discriminate.
    destruct (4503599627370496 ?= m)%positive; cbn [CompOpp]; discriminate.
Qed.

Lemma classify_ici_else ici :
  F64.leb ici (F64.of_Z 1) = false ->
  F64.ltb (F64.of_Z 1) ici && F64.leb ici (F64.of_Z 3) = false ->
  classify_ici ici = "High Contamination"%string.
Proof. unfold classify_ici. intros -> ->. reflexivity. Qed.

Lemma classify_ici_high ici :
  F64.ltb (F64.of_Z 3) ici = true -> classify_ici ici = "High Contamination"%string.
Proof.
  intros H. destruct (above_three _ H) as [H1 H3].
  apply classify_ici_else; [exact H1|]. rewrite H3. apply andb_false_r.
Qed.

(** C10: [classify_ici] returns one of the three labels on every float;
    whenever both tests fail the label is "High Contamination", and NaN
    fails both. *)
Theorem classify_ici_total (ici : spec_float) :
  (classify_ici ici = "Low Contamination"%string
   \/ classify_ici ici = "Moderate Contamination"%string
   \/ classify_ici ici = "High Contamination"%string)
  /\ (F64.leb ici (F64.of_Z 1) = false ->
      F64.ltb (F64.of_Z 1) ici && F64.leb ici (F64.of_Z 3) = false ->
      classify_ici ici = "High Contamination"%string)
  /\ F64.leb S754_nan (F64.of_Z 1) = false
  /\ F64.ltb (F64.of_Z 1) S754_nan && F64.leb S754_nan (F64.of_Z 3) = false
  /\ classify_ici S754_nan = "High Contamination"%string.
Proof.
  split; [|split; [apply classify_ici_else|]].
  - unfold classify_ici.
    destruct (F64.leb ici (F64.of_Z 1)); [auto|].
    destruct (F64.ltb (F64.of_Z 1) ici && F64.leb ici (F64.of_Z 3)); auto.
  - repeat split; reflexivity.
Qed.

Lemma classify_ici_total_witness :
  classify_ici (S754_infinity false) = "High Contamination"%string.
Proof.
  apply (classify_ici_total (S754_infinity false)); reflexivity.
Defined.

(** ** Period labels *)

(** [np.select] returns the choice of the first condition that holds. *)
Lemma np_select_first_match {A} (condlist : list bool) (choicelist : list A) d i x :
  condlist !! i = Some true ->
  (forall j, (j < i)%nat -> condlist !! j = Some false) ->
  choicelist !! i = Some x ->
  np_select condlist choicelist d = x.
Proof.
  revert choicelist i. induction condlist as [|c cs IH]; intros [|y ys] i Hi Hlt Hx;
    try (destruct i; discriminate).
  destruct i as [|i]; simpl in *.
  - injection Hi as ->. injection Hx as ->. reflexivity.
  - specialize (Hlt 0%nat ltac:(lia)) as H0. simpl in H0. injection H0 as ->.
    apply (IH ys i); auto. intros j Hj. apply (Hlt (S j)). lia.
Qed.

Lemma np_select_no_match {A} (condlist : list bool) (choicelist : list A) d :
  Forall (fun c => c = false) condlist -> np_select condlist choicelist d = d.
Proof.
  intros H. revert choicelist. induction H as [|c cs -> _ IH]; intros [|y ys]; simpl; auto.
Qed.

Lemma traverse_ok {A B} (f : A -> result B) (g : A -> B) l :
  Forall (fun x => f x = Ok (g x)) l -> traverse f l = Ok (g <$> l).
Proof.
  induction 1 as [|x l Hx _ IH]; simpl; [reflexivity|].
  rewrite Hx. simpl. rewrite IH. reflexivity.
Qed.

Lemma period_of_year_cases y :
  (1995 <= y <= 2000 /\ period_of_year y = "1995-2000"%string)
  \/ (2008 <= y <= 2012 /\ period_of_year y = "2008-2012"%string)
  \/ (2013 <= y <= 2017 /\ period_of_year y = "2013-2017"%string)
  \/ (2018 <= y <= 2023 /\ period_of_year y = "2018-2023"%string)
  \/ ((y < 1995 \/ 2000 < y < 2008 \/ 2023 < y) /\ period_of_year y = "Unknown"%string).
Proof.
  unfold period_of_year, conditions, period_labels, np_select.
  destruct (Z.leb_spec 1995 y), (Z.leb_spec y 2000), (Z.leb_spec 2008 y),
    (Z.leb_spec y 2012), (Z.leb_spec 2013 y), (Z.leb_spec y 2017),
    (Z.leb_spec 2018 y), (Z.leb_spec y 2023); cbn [andb]; try lia; auto 10 with lia.
  all: right; right; right; right; split; [lia | reflexivity].
Qed.

(** C4: on an integer Year column the stage writes, row by row, the
    label of the first of the four inclusive ranges that holds the year
    and "Unknown" when none does; 2000 is in "1995-2000" and 2001 in no
    range. *)
Theorem period_stage_labels (df : DataFrame) (ys : list Z) (ws : list string) :
  "Year"%string ∈ columns df ->
  get_column df "Year" = VInt <$> ys ->
  period_stage df ws
    = (ws, Continue (set_column df "Period" ((fun y => VStr (period_of_year y)) <$> ys)))
  /\ Forall (fun y =>
       (1995 <= y <= 2000 /\ period_of_year y = "1995-2000"%string)
       \/ (2008 <= y <= 2012 /\ period_of_year y = "2008-2012"%string)
       \/ (2013 <= y <= 2017 /\ period_of_year y = "2013-2017"%string)
       \/ (2018 <= y <= 2023 /\ period_of_year y = "2018-2023"%string)
       \/ ((y < 1995 \/ 2000 < y < 2008 \/ 2023 < y)
           /\ period_of_year y = "Unknown"%string)) ys
  /\ Forall (fun y => forall i label,
       conditions (fun n => n <=? y) (fun n => y <=? n) !! i = Some true ->
       (forall j, (j < i)%nat ->
          conditions (fun n => n <=? y) (fun n => y <=? n) !! j = Some false) ->
       period_labels !! i = Some label ->
       period_of_year y = label) ys
  /\ period_of_year 2000 = "1995-2000"%string
  /\ period_of_year 2001 = "Unknown"%string.
Proof.
  intros Hyear Hcol. repeat split.
  - unfold period_stage. rewrite bool_decide_eq_true_2 by exact Hyear.
    unfold assign_period. rewrite Hcol.
    rewrite (traverse_ok _ (fun v => VStr (period_of_year (int_of_cell v)))).
    + rewrite <- list_fmap_compose. reflexivity.
    + apply Forall_fmap, Forall_forall. intros y _. reflexivity.
  - apply Forall_forall. intros y _. apply period_of_year_cases.
  - apply Forall_forall. intros y _ i label Hi Hlt Hl.
    unfold period_of_year. eapply np_select_first_match; eauto.
Qed.

Lemma period_stage_labels_witness :
  period_stage sample_frame []
  = ([], Continue (set_column sample_frame "Period"
          [VStr "1995-2000"; VStr "1995-2000"; VStr "Unknown"; VStr "2008-2012"])).
Proof.
  apply (period_stage_labels sample_frame [2000; 2000; 2001; 2010] []).
  - vm_compute. repeat constructor.
  - vm_compute. reflexivity.
Defined.

(** ** Schema validation *)

Lemma elem_of_missing_critical df c :
  c ∈ missing_critical df <-> c ∈ critical_columns /\ c ∉ columns df.
Proof. unfold missing_critical. rewrite list_elem_of_filter. tauto. Qed.

(** C6: when a critical column is missing the run ends at [st.stop()],
    with no warning and no frame, after one error message that lists the
    missing critical columns and nothing else. *)
Theorem missing_critical_stops (ext : Externals) (remove_duplicates : bool) (df : DataFrame) :
  (exists c, c ∈ critical_columns /\ c ∉ columns df) ->
  run_script ext remove_duplicates df
    = mkRun [] (Stopped ("The following critical columns are missing: "
                         ++ py_repr_list (missing_critical df)))
  /\ missing_critical df <> []
  /\ (forall c, c ∈ missing_critical df <-> c ∈ critical_columns /\ c ∉ columns df).
Proof.
  intros (c & Hc & Habs).
  assert (Hin : c ∈ missing_critical df) by (apply elem_of_missing_critical; auto).
  split; [|split; [|apply elem_of_missing_critical]].
  - unfold run_script, pipeline, validate, mbind, script_bind.
    destruct (missing_critical df) as [|m ms] eqn:Hm; [inversion Hin|].
    reflexivity.
  - intros Hnil. rewrite Hnil in Hin. inversion Hin.
Qed.

Lemma missing_critical_stops_witness :
  run_script plain_externals false frame_without_ph_bd
  = mkRun [] (Stopped "The following critical columns are missing: ['pH', 'BD']").
Proof.
  apply (missing_critical_stops plain_externals false frame_without_ph_bd).
  exists "pH"%string. split; apply (bool_decide_unpack _); vm_compute; exact I.
Defined.

(** ** Row filter *)

Lemma filter_idempotent {A} (P : A -> Prop) `{forall x, Decision (P x)} (l : list A) :
  filter P (filter P l) = filter P l.
Proof.
  induction l as [|x l IH]; [reflexivity|].
  rewrite (filter_cons P x l). destruct (decide (P x)) as [Hx|Hx]; [|exact IH].
  rewrite (filter_cons P x (filter P l)). destruct (decide (P x)); [|contradiction].
  rewrite IH. reflexivity.
Qed.


(** C7: once the critical columns are there, the row filter returns a
    frame whose rows are the rows without a null critical cell, in their
    original order, and filtering that frame again returns it unchanged. *)
Theorem dropna_no_null_idempotent (df : DataFrame) :
  missing_critical df = [] ->
  exists out,
    dropna critical_columns df = Ok out
    /\ columns out = columns df
    /\ rows out `sublist_of` rows df
    /\ (forall r c, r ∈ rows out -> c ∈ critical_columns -> isna (cell r c) = false)
    /\ (forall r, r ∈ rows df ->
          (forall c, c ∈ critical_columns -> isna (cell r c) = false) -> r ∈ rows out)
    /\ dropna critical_columns out = Ok out.
Proof.
  intros Hm. unfold missing_critical in Hm. unfold dropna. rewrite Hm.
  eexists. split; [reflexivity|]. cbn [columns rows]. rewrite Hm.
  split; [reflexivity|]. split; [apply sublist_filter|].
  split; [|split].
  - intros r c Hr Hc. apply list_elem_of_filter in Hr as [Hall _].
    rewrite forallb_forall in Hall. apply negb_true_iff, Hall, list_elem_of_In, Hc.
  - intros r Hr Hall. apply list_elem_of_filter. split; [|exact Hr].
    apply forallb_forall. intros c Hc. apply negb_true_iff, Hall, list_elem_of_In, Hc.
  - rewrite filter_idempotent. reflexivity.
Qed.

Lemma dropna_no_null_idempotent_witness :
  exists out,
    dropna critical_columns sample_frame = Ok out
    /\ columns out = columns sample_frame
    /\ rows out `sublist_of` rows sample_frame
    /\ (forall r c, r ∈ rows out -> c ∈ critical_columns -> isna (cell r c) = false)
    /\ (forall r, r ∈ rows sample_frame ->
          (forall c, c ∈ critical_columns -> isna (cell r c) = false) -> r ∈ rows out)
    /\ dropna critical_columns out = Ok out.
Proof.
  apply (dropna_no_null_idempotent sample_frame). vm_compute. reflexivity.
Defined.

(** ** Latest sample per group *)

Section groupby_idxmax_facts.
Context {A K : Type} `{EqDecision K}.
Variable key : A -> option K.
Variable measure : A -> Z.
Variable key_leb : K -> K -> bool.

Lemma foldl_max_ge (m : Z) (ms : list Z) :
  m <= foldl Z.max m ms /\ Forall (fun x => x <= foldl Z.max m ms) ms.
Proof.
  revert m. induction ms as [|x ms IH]; intros m; simpl; [split; [lia|constructor]|].
  destruct (IH (Z.max m x)) as [H1 H2]. split; [lia|].
  constructor; [lia|exact H2].
Qed.

Lemma foldl_max_elem (m : Z) (ms : list Z) : foldl Z.max m ms ∈ m :: ms.
Proof.
  revert m. induction ms as [|x ms IH]; intros m; simpl; [left|].
  specialize (IH (Z.max m x)). apply elem_of_cons in IH as [IH|IH].
  - rewrite IH. destruct (Z.max_spec m x) as [[_ ->]|[_ ->]]; [right; left|left].
  - right; right; exact IH.
Qed.

Lemma group_max_spec k l m :
  group_max key measure k l = Some m ->
  (exists x, x ∈ l /\ key x = Some k /\ measure x = m)
  /\ (forall x, x ∈ l -> key x = Some k -> measure x <= m).
Proof.
  unfold group_max.
  destruct (measure <$> filter (fun x => key x = Some k) l) as [|m0 ms] eqn:Hg; [discriminate|].
  intros [= <-]. split.
  - pose proof (foldl_max_elem m0 ms) as Hin. rewrite <- Hg in Hin.
    apply list_elem_of_fmap in Hin as (x & Hx & Hin).
    apply list_elem_of_filter in Hin as [Hk Hin]. exists x. auto.
  - intros x Hx Hk.
    assert (Hin : measure x ∈ m0 :: ms).
    { rewrite <- Hg. apply list_elem_of_fmap. exists x. split; [reflexivity|].
      apply list_elem_of_filter. auto. }
    destruct (foldl_max_ge m0 ms) as [H0 Hall].
    apply elem_of_cons in Hin as [->|Hin]; [exact H0|].
    rewrite Forall_forall in Hall. apply Hall, Hin.
Qed.

Lemma group_max_is_Some k l x :
  x ∈ l -> key x = Some k -> is_Some (group_max key measure k l).
Proof.
  intros Hx Hk. unfold group_max.
  destruct (measure <$> filter (fun x => key x = Some k) l) as [|m0 ms] eqn:Hg; [|eauto].
  exfalso. assert (Hin : measure x ∈ measure <$> filter (fun x => key x = Some k) l).
  { apply list_elem_of_fmap. exists x. split; [reflexivity|]. apply list_elem_of_filter. auto. }
  rewrite Hg in Hin. inversion Hin.
Qed.

(** [idxmax] finds the first row of the group that carries its maximum. *)
Lemma idxmax_spec k l x :
  x ∈ l -> key x = Some k ->
  exists i r,
    idxmax key measure k l = Some i
    /\ l !! i = Some r
    /\ key r = Some k
    /\ (forall y, y ∈ l -> key y = Some k -> measure y <= measure r)
    /\ (forall j y, l !! j = Some y -> key y = Some k -> measure y = measure r -> (i <= j)%nat).
Proof.
  intros Hx Hk. unfold idxmax.
  destruct (group_max_is_Some k l x Hx Hk) as [m Hm]. rewrite Hm. cbn.
  destruct (group_max_spec k l m Hm) as [(x0 & Hx0 & Hk0 & Hm0) Hmax].
  destruct (list_find_elem_of (fun x => key x = Some k /\ measure x = m) l x0 Hx0)
    as [[i r] Hfind]; [auto|].
  rewrite Hfind. cbn. exists i, r.
  apply list_find_Some in Hfind as (Hi & [Hkr Hmr] & Hfirst).
  split; [reflexivity|]. split; [exact Hi|]. split; [exact Hkr|]. split.
  - intros y Hy Hky. rewrite Hmr. apply Hmax; auto.
  - intros j y Hj Hky Hmy. destruct (le_lt_dec i j) as [|Hlt]; [assumption|].
    exfalso. apply (Hfirst j y Hj); [exact Hlt|]. split; [exact Hky|congruence].
Qed.

Lemma elem_of_group_keys k l :
  k ∈ group_keys key key_leb l <-> exists x, x ∈ l /\ key x = Some k.
Proof.
  unfold group_keys. rewrite merge_sort_Permutation, elem_of_remove_dups.
  apply list_elem_of_omap.
Qed.

Lemma NoDup_group_keys l : NoDup (group_keys key key_leb l).
Proof.
  unfold group_keys. rewrite merge_sort_Permutation. apply NoDup_remove_dups.
Qed.

Lemma length_omap_le {B C} (f : B -> option C) (l : list B) :
  (length (omap f l) <= length l)%nat.
Proof. induction l as [|x l IH]; csimpl; [lia|]. destruct (f x); csimpl; lia. Qed.

Lemma length_remove_dups_le (l : list K) : (length (remove_dups l) <= length l)%nat.
Proof.
  induction l as [|x l IH]; simpl; [lia|]. destruct (decide_rel _ x l); simpl; lia.
Qed.

Lemma length_group_keys l : (length (group_keys key key_leb l) <= length l)%nat.
Proof.
  unfold group_keys. rewrite merge_sort_Permutation.
  etransitivity; [apply length_remove_dups_le|apply length_omap_le].
Qed.

(** One row per key, for keys without repetition. *)
Lemma filter_omap_NoDup (f : K -> option A) (ks : list K) k r :
  NoDup ks ->
  (forall k' r', k' ∈ ks -> f k' = Some r' -> key r' = Some k') ->
  k ∈ ks -> f k = Some r ->
  filter (fun x => key x = Some k) (omap f ks) = [r].
Proof.
  intros Hnd Hf. induction Hnd as [|k0 ks Hnotin Hnd IH]; intros Hin Hr; [inversion Hin|].
  assert (Hout : forall ks', k ∉ ks' -> (forall k' r', k' ∈ ks' -> f k' = Some r' -> key r' = Some k') ->
            filter (fun x => key x = Some k) (omap f ks') = []).
  { clear. induction ks' as [|k1 ks' IH']; intros Hn Hf'; [reflexivity|].
    simpl. destruct (f k1) as [r1|] eqn:H1.
    - rewrite filter_cons. destruct (decide (key r1 = Some k)) as [Heq|_].
      + exfalso. apply Hn. rewrite (Hf' k1 r1) in Heq by (auto; left).
        injection Heq as ->. left.
      + apply IH'; [intros ?; apply Hn; right; assumption|].
        intros ????; eapply Hf'; eauto. right; assumption.
    - apply IH'; [intros ?; apply Hn; right; assumption|].
      intros ????; eapply Hf'; eauto. right; assumption. }
  simpl. apply elem_of_cons in Hin as [->|Hin].
  - rewrite Hr. rewrite filter_cons.
    destruct (decide (key r = Some k0)) as [_|Hne].
    + f_equal. apply Hout; [exact Hnotin|]. intros ????; eapply Hf; eauto. right; assumption.
    + exfalso. apply Hne. eapply Hf; eauto. left.
  - assert (Hne : k0 <> k) by (intros ->; contradiction).
    destruct (f k0) as [r0|] eqn:H0.
    + rewrite filter_cons. destruct (decide (key r0 = Some k)) as [Heq|_].
      * exfalso. rewrite (Hf k0 r0) in Heq by (auto; left). congruence.
      * apply IH; auto. intros ????; eapply Hf; eauto. right; assumption.
    + apply IH; auto. intros ????; eapply Hf; eauto. right; assumption.
Qed.

Lemma pick_idxmax k l x :
  x ∈ l -> key x = Some k ->
  exists i r,
    (i ← idxmax key measure k l; l !! i) = Some r
    /\ l !! i = Some r
    /\ key r = Some k
    /\ (forall y, y ∈ l -> key y = Some k -> measure y <= measure r)
    /\ (forall j y, l !! j = Some y -> key y = Some k -> measure y = measure r -> (i <= j)%nat).
Proof.
  intros Hx Hk. destruct (idxmax_spec k l x Hx Hk) as (i & r & Hi & Hr & Hrest).
  exists i, r. rewrite Hi. cbn. auto.
Qed.

Lemma pick_idxmax_key k l r :
  k ∈ group_keys key key_leb l ->
  (i ← idxmax key measure k l; l !! i) = Some r ->
  key r = Some k /\ r ∈ l.
Proof.
  intros Hk Hr. apply elem_of_group_keys in Hk as (x & Hx & Hkx).
  destruct (pick_idxmax k l x Hx Hkx) as (i & r0 & Hpick & Hi & Hkr & _).
  rewrite Hpick in Hr. injection Hr as <-. split; [exact Hkr|].
  eapply list_elem_of_lookup_2, Hi.
Qed.

Lemma select_idxmax_elem l r :
  r ∈ select_idxmax key measure key_leb l -> r ∈ l /\ is_Some (key r).
Proof.
  unfold select_idxmax. intros Hr. apply list_elem_of_omap in Hr as (k & Hk & Hr).
  destruct (pick_idxmax_key k l r Hk Hr) as [Hkr Hin]. split; [exact Hin|]. rewrite Hkr. eauto.
Qed.

Lemma select_idxmax_length l :
  (length (select_idxmax key measure key_leb l) <= length l)%nat.
Proof.
  unfold select_idxmax. etransitivity; [apply length_omap_le|apply length_group_keys].
Qed.

(** The selection holds, for every group, exactly the first row that
    carries the group's maximum. *)
Lemma select_idxmax_group k l x :
  x ∈ l -> key x = Some k ->
  exists i r,
    filter (fun y => key y = Some k) (select_idxmax key measure key_leb l) = [r]
    /\ l !! i = Some r
    /\ (forall y, y ∈ l -> key y = Some k -> measure y <= measure r)
    /\ (forall j y, l !! j = Some y -> key y = Some k -> measure y = measure r -> (i <= j)%nat).
Proof.
  intros Hx Hk. destruct (pick_idxmax k l x Hx Hk) as (i & r & Hpick & Hi & Hkr & Hmax & Hfirst).
  exists i, r. split; [|auto]. unfold select_idxmax.
  apply filter_omap_NoDup; [apply NoDup_group_keys| |apply elem_of_group_keys; eauto|exact Hpick].
  intros k' r' Hk' Hr'. eapply pick_idxmax_key; eauto.
Qed.

End groupby_idxmax_facts.

Lemma forallb_is_int_column df :
  (forall r, r ∈ rows df -> exists z, cell r "Sample Count" = VInt z) ->
  forallb is_int (get_column df "Sample Count") = true.
Proof.
  intros H. apply forallb_forall. intros v Hv. apply list_elem_of_In in Hv.
  unfold get_column in Hv. apply list_elem_of_fmap in Hv as (r & -> & Hr).
  destruct (H r Hr) as [z ->]. reflexivity.
Qed.

(** C2: with the 'Site Num', 'Period' and integer 'Sample Count' columns
    present, the selector returns, without a warning, rows of its input:
    for every (site, period) group exactly one row, which carries the
    largest sample count of the group and is the first row of the group
    to do so; the output is not longer than the input. *)
Theorem latest_stage_one_per_group (ext : Externals) (df : DataFrame) (ws : list string) :
  "Site Num"%string ∈ columns df ->
  "Period"%string ∈ columns df ->
  "Sample Count"%string ∈ columns df ->
  (forall r, r ∈ rows df -> exists z, cell r "Sample Count" = VInt z) ->
  exists out,
    latest_stage ext df ws = (ws, Continue out)
    /\ columns out = columns df
    /\ (length (rows out) <= length (rows df))%nat
    /\ (forall r, r ∈ rows out -> r ∈ rows df /\ is_Some (site_period r))
    /\ (forall k x, x ∈ rows df -> site_period x = Some k ->
          exists i r,
            filter (fun y => site_period y = Some k) (rows out) = [r]
            /\ rows df !! i = Some r
            /\ (forall y, y ∈ rows df -> site_period y = Some k ->
                  sample_count y <= sample_count r)
            /\ (forall j y, rows df !! j = Some y -> site_period y = Some k ->
                  sample_count y = sample_count r -> (i <= j)%nat)).
Proof.
  intros Hsite Hperiod Hcount Hint.
  unfold latest_stage, keep_latest.
  rewrite !bool_decide_eq_true_2 by assumption. cbn [andb].
  rewrite forallb_is_int_column by exact Hint.
  eexists. split; [reflexivity|]. cbn [columns rows].
  split; [reflexivity|]. split; [apply select_idxmax_length|].
  split; [apply select_idxmax_elem|].
  intros k x Hx Hk. eapply select_idxmax_group; eauto.
Qed.

Lemma latest_stage_one_per_group_witness :
  exists out,
    latest_stage plain_externals tied_frame [] = ([], Continue out)
    /\ columns out = columns tied_frame
    /\ (length (rows out) <= length (rows tied_frame))%nat
    /\ (forall r, r ∈ rows out -> r ∈ rows tied_frame /\ is_Some (site_period r))
    /\ (forall k x, x ∈ rows tied_frame -> site_period x = Some k ->
          exists i r,
            filter (fun y => site_period y = Some k) (rows out) = [r]
            /\ rows tied_frame !! i = Some r
            /\ (forall y, y ∈ rows tied_frame -> site_period y = Some k ->
                  sample_count y <= sample_count r)
            /\ (forall j y, rows tied_frame !! j = Some y -> site_period y = Some k ->
                  sample_count y = sample_count r -> (i <= j)%nat)).
Proof.
  apply (latest_stage_one_per_group plain_externals tied_frame []).
  - apply (bool_decide_unpack _); vm_compute; exact I.
  - apply (bool_decide_unpack _); vm_compute; exact I.
  - apply (bool_decide_unpack _); vm_compute; exact I.
  - intros r Hr. apply list_elem_of_In in Hr. cbn [tied_frame rows In] in Hr.
    destruct Hr as [<-|[<-|[<-|[<-|[<-|[]]]]]]; eexists; vm_compute; reflexivity.
Defined.

(** On the tied frame the first of the two tied rows is the one kept. *)
Example keep_latest_tied_frame :
  keep_latest (key_leb plain_externals) tied_frame
  = Ok {| columns := columns tied_frame;
          rows := [ counted_row "A7-02" (VInt 7) 2 "1995-2000";
                    counted_row "A9-01" (VInt 9) 1 "Unknown" ] |}.
Proof. vm_compute. reflexivity. Qed.

(** ** Column-wise updates *)

Lemma cell_insert_eq (r : gmap string value) c v : cell (<[c := v]> r) c = v.
Proof. unfold cell. rewrite lookup_insert_eq. reflexivity. Qed.

Lemma cell_insert_ne (r : gmap string value) c c' v :
  c <> c' -> cell (<[c := v]> r) c' = cell r c'.
Proof. intros Hne. unfold cell. rewrite lookup_insert_ne by exact Hne. reflexivity. Qed.

Lemma traverse_Forall2 {A B} (f : A -> result B) (l : list A) :
  Forall (fun x => exists y, f x = Ok y) l ->
  exists ys, traverse f l = Ok ys /\ Forall2 (fun x y => f x = Ok y) l ys.
Proof.
  induction 1 as [|x l [y Hy] _ (ys & Hys & Hall)]; simpl.
  - exists []. split; [reflexivity|constructor].
  - exists (y :: ys). rewrite Hy. cbn. rewrite Hys. cbn. split; [reflexivity|].
    constructor; assumption.
Qed.

(** A cell function run down one column and stored under a label. *)
Lemma map_column (f : value -> result value) (df : DataFrame) (src dst : string) :
  (forall r, r ∈ rows df -> exists w, f (cell r src) = Ok w) ->
  exists vals,
    traverse f (get_column df src) = Ok vals
    /\ length (rows (set_column df dst vals)) = length (rows df)
    /\ (forall i r, rows df !! i = Some r ->
          exists v, f (cell r src) = Ok v
                    /\ rows (set_column df dst vals) !! i = Some (<[dst := v]> r)).
Proof.
  intros Hok.
  destruct (traverse_Forall2 f (get_column df src)) as (vals & Htr & Hall).
  { unfold get_column. apply Forall_fmap, Forall_forall. intros r Hr. apply Hok, Hr. }
  exists vals. split; [exact Htr|].
  assert (Hlen : length vals = length (rows df)).
  { apply Forall2_length in Hall. unfold get_column in Hall.
    rewrite length_fmap in Hall. symmetry. exact Hall. }
  split.
  - unfold set_column. cbn [rows]. rewrite length_zip_with. lia.
  - intros i r Hi.
    assert (Hc : get_column df src !! i = Some (cell r src)).
    { unfold get_column. rewrite list_lookup_fmap, Hi. reflexivity. }
    destruct (Forall2_lookup_l _ _ _ _ _ Hall Hc) as (v & Hv & Hfv).
    exists v. split; [exact Hfv|].
    unfold set_column. cbn [rows]. rewrite lookup_zip_with, Hi. cbn. rewrite Hv. reflexivity.
Qed.

Lemma columns_set_column_in df c vals :
  c ∈ columns df -> columns (set_column df c vals) = columns df.
Proof. intros H. unfold set_column. cbn. rewrite bool_decide_eq_true_2 by exact H. reflexivity. Qed.

(** ** Censored values *)

Lemma startswith_contains s : startswith_lt s = true -> contains_lt s = true.
Proof. destruct s as [|c s]; simpl; [discriminate|]. intros ->. reflexivity. Qed.

Lemma halve_censored_idempotent pf v w :
  halve_censored pf v = Ok w -> halve_censored pf w = Ok w.
Proof.
  destruct v as [| | |s]; simpl; try (intros [= <-]; reflexivity).
  destruct (startswith_lt s) eqn:Hs.
  - destruct (pf (tail_str s)); [|discriminate]. intros [= <-]. reflexivity.
  - intros [= <-]. simpl. rewrite Hs. reflexivity.
Qed.

Lemma halve_censored_unmarked pf v :
  (forall s, v = VStr s -> startswith_lt s = false) -> halve_censored pf v = Ok v.
Proof.
  intros H. destruct v as [| | |s]; simpl; try reflexivity.
  rewrite (H s eq_refl). reflexivity.
Qed.

Lemma elem_of_columns_with_less_than df c :
  c ∈ columns_with_less_than df <->
  c ∈ columns df /\ exists s, VStr s ∈ get_column df c /\ contains_lt s = true.
Proof.
  unfold columns_with_less_than. rewrite list_elem_of_filter, existsb_exists.
  split.
  - intros [(v & Hin & Hs) Hc]. split; [exact Hc|].
    destruct v as [| | |s]; try discriminate.
    exists s. split; [apply list_elem_of_In, Hin|exact Hs].
  - intros [Hc (s & Hin & Hs)]. split; [|exact Hc].
    exists (VStr s). split; [apply list_elem_of_In, Hin|exact Hs].
Qed.

Lemma replace_less_than_cells pf cols df :
  Forall (fun c => c ∈ columns df) cols ->
  (forall c r, c ∈ cols -> r ∈ rows df -> exists w, halve_censored pf (cell r c) = Ok w) ->
  exists out,
    replace_less_than pf cols df = Ok out
    /\ columns out = columns df
    /\ length (rows out) = length (rows df)
    /\ (forall i r, rows df !! i = Some r ->
          exists r', rows out !! i = Some r'
            /\ (forall c, c ∈ cols -> halve_censored pf (cell r c) = Ok (cell r' c))
            /\ (forall c, c ∉ cols -> cell r' c = cell r c)).
Proof.
  revert df. induction cols as [|column cols IH]; intros df Hcols Hok; simpl.
  - exists df. split; [reflexivity|]. split; [reflexivity|]. split; [reflexivity|].
    intros i r Hi. exists r. split; [exact Hi|]. split; [intros c Hc; inversion Hc|reflexivity].
  - apply Forall_cons in Hcols as [Hcol Hcols].
    destruct (map_column (halve_censored pf) df column column) as (vals & Htr & Hlen & Hrows).
    { intros r Hr. apply Hok; [left|exact Hr]. }
    rewrite Htr. cbn.
    set (df1 := set_column df column vals) in *.
    assert (Hcols1 : columns df1 = columns df) by (apply columns_set_column_in, Hcol).
    destruct (IH df1) as (out & Hout & Hc & Hl & Hcells).
    { rewrite Hcols1. exact Hcols. }
    { intros c r1 Hcin Hr1. apply list_elem_of_lookup in Hr1 as [i Hi].
      assert (is_Some (rows df !! i)) as [r Hr].
      { apply lookup_lt_is_Some. rewrite <- Hlen. eapply lookup_lt_Some, Hi. }
      destruct (Hrows i r Hr) as (v & Hv & Hi1). rewrite Hi1 in Hi. injection Hi as <-.
      destruct (decide (column = c)) as [<-|Hne].
      - rewrite cell_insert_eq. exists v. eapply halve_censored_idempotent, Hv.
      - rewrite cell_insert_ne by exact Hne. apply Hok; [right; exact Hcin|].
        eapply list_elem_of_lookup_2, Hr. }
    exists out. split; [exact Hout|]. split; [congruence|]. split; [congruence|].
    intros i r Hr. destruct (Hrows i r Hr) as (v & Hv & Hi1).
    destruct (Hcells i _ Hi1) as (r' & Hr' & Hin & Hnotin).
    exists r'. split; [exact Hr'|]. split.
    + intros c Hcc. destruct (decide (column = c)) as [<-|Hne].
      * destruct (decide (column ∈ cols)) as [Hm|Hm].
        -- specialize (Hin column Hm). rewrite cell_insert_eq in Hin.
           rewrite (halve_censored_idempotent _ _ _ Hv) in Hin. injection Hin as <-. exact Hv.
        -- rewrite (Hnotin column Hm), cell_insert_eq. exact Hv.
      * apply elem_of_cons in Hcc as [Heq|Hcc]; [congruence|].
        specialize (Hin c Hcc). rewrite cell_insert_ne in Hin by exact Hne. exact Hin.
    + intros c Hcc. apply not_elem_of_cons in Hcc as [Hne Hcc].
      rewrite (Hnotin c Hcc). apply cell_insert_ne. congruence.
Qed.

(** C3, as the code has it: every column with a str value that begins
    with the marker is among the columns the normalizer rewrites; when
    Python's [float] reads what follows each marker, every such value
    becomes that number divided by 2, every other value of the frame is
    left exactly as it was (a str without the marker stays a str), and
    columns without the marker are untouched. *)
Theorem normalize_censored_cells (pf : string -> option spec_float) (df : DataFrame) :
  (forall c r s, c ∈ columns df -> r ∈ rows df -> cell r c = VStr s ->
     startswith_lt s = true -> is_Some (pf (tail_str s))) ->
  exists out,
    normalize_censored pf df = Ok out
    /\ columns out = columns df
    /\ length (rows out) = length (rows df)
    /\ (forall c r s, c ∈ columns df -> r ∈ rows df -> cell r c = VStr s ->
          startswith_lt s = true -> c ∈ columns_with_less_than df)
    /\ (forall i r, rows df !! i = Some r ->
          exists r', rows out !! i = Some r'
            /\ (forall c s, c ∈ columns df -> cell r c = VStr s -> startswith_lt s = true ->
                  exists f, pf (tail_str s) = Some f
                            /\ cell r' c = VFloat (F64.div f (F64.of_Z 2)))
            /\ (forall c, (forall s, cell r c = VStr s -> startswith_lt s = false) ->
                  cell r' c = cell r c)
            /\ (forall c, c ∉ columns_with_less_than df -> cell r' c = cell r c)).
Proof.
  intros Hpf.
  assert (Hsel : forall c r s, c ∈ columns df -> r ∈ rows df -> cell r c = VStr s ->
            startswith_lt s = true -> c ∈ columns_with_less_than df).
  { intros c r s Hc Hr Hcell Hs. apply elem_of_columns_with_less_than. split; [exact Hc|].
    exists s. split; [|apply startswith_contains, Hs].
    unfold get_column. apply list_elem_of_fmap. exists r. auto. }
  destruct (replace_less_than_cells pf (columns_with_less_than df) df)
    as (out & Hout & Hcols & Hlen & Hcells).
  { apply Forall_forall. intros c Hc. apply elem_of_columns_with_less_than in Hc. tauto. }
  { intros c r Hc Hr. apply elem_of_columns_with_less_than in Hc as [Hc _].
    destruct (cell r c) as [| | |s] eqn:Hcell; simpl; eauto.
    destruct (startswith_lt s) eqn:Hs; [|eauto].
    destruct (Hpf c r s Hc Hr Hcell Hs) as [f ->]. eauto. }
  exists out. split; [exact Hout|]. split; [exact Hcols|]. split; [exact Hlen|].
  split; [exact Hsel|].
  intros i r Hi. destruct (Hcells i r Hi) as (r' & Hr' & Hin & Hnotin).
  assert (Hr : r ∈ rows df) by (eapply list_elem_of_lookup_2, Hi).
  exists r'. split; [exact Hr'|]. split; [|split; [|exact Hnotin]].
  - intros c s Hc Hcell Hs. specialize (Hin c (Hsel c r s Hc Hr Hcell Hs)).
    rewrite Hcell in Hin. simpl in Hin. rewrite Hs in Hin.
    destruct (pf (tail_str s)) as [f|]; [|discriminate].
    injection Hin as <-. eauto.
  - intros c Hun. destruct (decide (c ∈ columns_with_less_than df)) as [Hc|Hc].
    + specialize (Hin c Hc). rewrite (halve_censored_unmarked pf _ Hun) in Hin.
      injection Hin as <-. reflexivity.
    + apply Hnotin, Hc.
Qed.

Lemma normalize_censored_cells_witness :
  exists out,
    normalize_censored float_of_decimal_text censored_frame = Ok out
    /\ columns out = columns censored_frame
    /\ length (rows out) = length (rows censored_frame).
Proof.
  destruct (normalize_censored_cells float_of_decimal_text censored_frame)
    as (out & Hout & Hcols & Hlen & _).
  - intros c r s Hc Hr. apply list_elem_of_In in Hc, Hr.
    cbn [censored_frame columns rows In] in Hc, Hr.
    destruct Hr as [<-|[<-|[<-|[<-|[]]]]]; destruct Hc as [<-|[<-|[<-|[]]]];
      intros Hcell; vm_compute in Hcell; try discriminate Hcell;
      injection Hcell as <-; intros Hs; vm_compute in Hs; try discriminate Hs;
      vm_compute; eauto.
  - exists out. auto.
Defined.

(** C3, the claim as stated fails: beside the censored "<0.2", which
    becomes 0.1, the texts "0.7" and "ND" of the same column are not
    made numeric; each stays the str it was. *)
Lemma censored_unmarked_stays_text :
  exists out,
    normalize_censored float_of_decimal_text censored_frame = Ok out
    /\ get_column censored_frame "Cd" = [VStr "<0.2"; VStr "0.7"; VStr "ND"; VInt 3]
    /\ get_column out "Cd" = [VFloat (F64.decimal 1 1); VStr "0.7"; VStr "ND"; VInt 3]
    /\ ~ Forall (fun v => is_number v = true) (get_column out "Cd").
Proof.
  eexists. split; [vm_compute; reflexivity|].
  split; [vm_compute; reflexivity|].
  split; [vm_compute; reflexivity|].
  vm_compute. intros H. apply Forall_cons in H as [_ H].
  apply Forall_cons in H as [H _]. discriminate H.
Qed.

(** ** float64 operations that never produce NaN *)

Section rounding_facts.
Variables prec emax : Z.

Lemma shr_1_nonneg mrs : 0 <= shr_m mrs -> 0 <= shr_m (shr_1 mrs).
Proof.
  destruct mrs as [m r s]. cbn [shr_m]. intros Hm.
  destruct m as [|p|p]; [| |lia]; cbn [shr_1]; [cbn; lia|].
  destruct p; cbn [shr_m]; lia.
Qed.

Lemma iter_pos_shr_1_nonneg p mrs :
  0 <= shr_m mrs -> 0 <= shr_m (SpecFloat.iter_pos shr_1 p mrs).
Proof.
  revert mrs. induction p as [p IH|p IH|]; intros mrs Hm; cbn [SpecFloat.iter_pos].
  - apply IH, IH, shr_1_nonneg, Hm.
  - apply IH, IH, Hm.
  - apply shr_1_nonneg, Hm.
Qed.

Lemma shr_nonneg mrs e n : 0 <= shr_m mrs -> 0 <= shr_m (fst (shr mrs e n)).
Proof.
  intros Hm. unfold shr. destruct n; cbn [fst]; [exact Hm| |exact Hm].
  apply iter_pos_shr_1_nonneg, Hm.
Qed.

Lemma shr_fexp_nonneg m e l : 0 <= m -> 0 <= shr_m (fst (shr_fexp prec emax m e l)).
Proof.
  intros Hm. unfold shr_fexp. apply shr_nonneg.
  destruct l as [|[]]; cbn [shr_record_of_loc shr_m]; exact Hm.
Qed.

Lemma round_nearest_even_nonneg m l : 0 <= m -> 0 <= round_nearest_even m l.
Proof.
  intros Hm. unfold round_nearest_even. destruct l as [|[]]; try lia.
  destruct (Z.even m); lia.
Qed.

Lemma binary_round_aux_not_nan sx mx ex lx :
  0 <= mx -> F64.is_nan (binary_round_aux prec emax sx mx ex lx) = false.
Proof.
  intros Hm. unfold binary_round_aux.
  pose proof (shr_fexp_nonneg mx ex lx Hm) as H1.
  destruct (shr_fexp prec emax mx ex lx) as [mrs' e']. cbn [fst] in H1.
  pose proof (shr_fexp_nonneg (round_nearest_even (shr_m mrs') (loc_of_shr_record mrs')) e'
                loc_Exact (round_nearest_even_nonneg _ _ H1)) as H2.
  destruct (shr_fexp prec emax _ e' loc_Exact) as [mrs'' e'']. cbn [fst] in H2.
  destruct (shr_m mrs'') as [|p|p]; [reflexivity| |lia].
  destruct (e'' <=? emax - prec); reflexivity.
Qed.

Lemma binary_normalize_not_nan m e s :
  F64.is_nan (binary_normalize prec emax m e s) = false.
Proof.
  unfold binary_normalize, binary_round. destruct m as [|p|p]; [reflexivity| |].
  - destruct (shl_align p e _) as [mz ez]. apply binary_round_aux_not_nan. lia.
  - destruct (shl_align p e _) as [mz ez]. apply binary_round_aux_not_nan. lia.
Qed.

Lemma SFdiv_finite_not_nan x s m e :
  F64.is_nan x = false -> F64.is_nan (SFdiv prec emax x (S754_finite s m e)) = false.
Proof.
  destruct x as [sx|sx| |sx mx ex]; intros Hx; try discriminate; try reflexivity.
  cbn [SFdiv]. unfold SFdiv_core_binary.
  set (m' := match _ - _ - _ with Z.pos _ => _ | Z0 => _ | Z.neg _ => _ end).
  assert (Hm' : 0 <= m').
  { subst m'. destruct (_ - _ - _) as [|p|p]; [lia| |lia].
    apply Z.shiftl_nonneg. lia. }
  destruct (Z.div_eucl m' (Z.pos m)) as [q r] eqn:Hdiv.
  apply binary_round_aux_not_nan.
  assert (Hq : q = m' / Z.pos m) by (unfold Z.div; rewrite Hdiv; reflexivity).
  rewrite Hq. apply Z.div_pos; lia.
Qed.

Lemma SFmul_finite_not_nan x s m e :
  F64.is_nan x = false -> F64.is_nan (SFmul prec emax x (S754_finite s m e)) = false.
Proof.
  destruct x as [sx|sx| |sx mx ex]; intros Hx; try discriminate; try reflexivity.
  cbn [SFmul]. apply binary_round_aux_not_nan. lia.
Qed.

End rounding_facts.

Lemma rint_not_nan x : F64.is_nan x = false -> F64.is_nan (F64.rint x) = false.
Proof.
  destruct x as [sx|sx| |sx mx ex]; intros Hx; try discriminate; try reflexivity.
  unfold F64.rint. destruct (0 <=? ex); [reflexivity|].
  apply binary_normalize_not_nan.
Qed.

Lemma of_Z_100 : F64.of_Z 100 = S754_finite false 7036874417766400 (-46).
Proof. vm_compute. reflexivity. Qed.

Lemma round2_not_nan x : F64.is_nan x = false -> F64.is_nan (F64.round2 x) = false.
Proof.
  intros Hx. unfold F64.round2, F64.div, F64.mul. rewrite of_Z_100.
  apply SFdiv_finite_not_nan, rint_not_nan, SFmul_finite_not_nan, Hx.
Qed.

Lemma ratio_not_nan f s m e :
  F64.is_nan f = false ->
  F64.is_nan (F64.round2 (F64.div f (S754_finite s m e))) = false.
Proof. intros Hf. apply round2_not_nan, SFdiv_finite_not_nan, Hf. Qed.

Lemma nanmean_complete l :
  Forall (fun x => F64.is_nan x = false) l ->
  F64.nanmean l = F64.div (F64.sum l) (F64.of_Z (Z.of_nat (length l))).
Proof.
  intros Hl. unfold F64.nanmean.
  replace ((fun x => if F64.is_nan x then F64.of_Z 0 else x) <$> l) with l.
  - replace (filter (fun x => F64.is_nan x = false) l) with l; [reflexivity|].
    induction Hl as [|x l Hx _ IH]; [reflexivity|].
    rewrite filter_cons. destruct (decide (F64.is_nan x = false)); [|contradiction].
    f_equal. exact IH.
  - induction Hl as [|x l Hx _ IH]; [reflexivity|].
    cbn [fmap list_fmap]. rewrite Hx. f_equal. exact IH.
Qed.

(** ** Contamination index *)

Lemma ci_label_inj e e' : ci_label e = ci_label e' -> e = e'.
Proof. unfold ci_label. cbn. intros [= H]. exact H. Qed.

Lemma ratio_cell_number m v :
  is_number v = true ->
  ratio_cell m v = Ok (VFloat (F64.round2 (F64.div (to_float v) m))).
Proof. destruct v; try discriminate; reflexivity. Qed.

Lemma set_column_in_subseteq df c vals x :
  x ∈ columns df -> x ∈ columns (set_column df c vals).
Proof.
  unfold set_column. cbn [columns]. case_bool_decide; [auto|].
  intros Hx. apply elem_of_app. left. exact Hx.
Qed.

Lemma rows_set_column_fmap df c (g : gmap string value -> value) :
  rows (set_column df c (g <$> rows df)) = (fun r => <[c := g r]> r) <$> rows df.
Proof.
  unfold set_column. cbn [rows]. induction (rows df) as [|r l IH]; [reflexivity|].
  cbn. f_equal. exact IH.
Qed.

Lemma add_ratios_cells means df :
  NoDup (means.*1) ->
  Forall (fun em => forall e', ci_label e' <> em.1) means ->
  Forall (fun em => em.1 ∈ columns df) means ->
  (forall r em, r ∈ rows df -> em ∈ means -> is_number (cell r em.1) = true) ->
  exists out,
    add_ratios means df = Ok out
    /\ length (rows out) = length (rows df)
    /\ (forall i r, rows df !! i = Some r ->
          exists r', rows out !! i = Some r'
            /\ (forall e m, (e, m) ∈ means ->
                  cell r' (ci_label e)
                  = VFloat (F64.round2 (F64.div (to_float (cell r e)) m)))
            /\ (forall c, c ∉ ci_label <$> means.*1 -> cell r' c = cell r c)).
Proof.
  revert df. induction means as [|[e m] means IH]; intros df Hnd Hlab Hcols Hnum.
  - exists df. split; [reflexivity|]. split; [reflexivity|].
    intros i r Hi. exists r. split; [exact Hi|].
    split; [intros e m H; inversion H|reflexivity].
  - cbn [fmap list_fmap fst] in Hnd. apply NoDup_cons in Hnd as [Hnotin Hnd].
    apply Forall_cons in Hlab as [Hlab_e Hlab].
    apply Forall_cons in Hcols as [Hcol_e Hcols]. cbn [fst] in *.
    cbn [add_ratios]. rewrite bool_decide_eq_true_2 by exact Hcol_e.
    destruct (map_column (ratio_cell m) df e (ci_label e)) as (vals & Htr & Hlen & Hrows).
    { intros r Hr. rewrite ratio_cell_number; [eauto|]. apply (Hnum r (e, m) Hr). left. }
    rewrite Htr. cbn.
    set (df1 := set_column df (ci_label e) vals) in *.
    assert (Hcell1 : forall i r, rows df !! i = Some r ->
              rows df1 !! i
              = Some (<[ci_label e := VFloat (F64.round2 (F64.div (to_float (cell r e)) m))]> r)).
    { intros i r Hi. destruct (Hrows i r Hi) as (v & Hv & Hi1).
      rewrite ratio_cell_number in Hv by (apply (Hnum r (e, m)); [eapply list_elem_of_lookup_2, Hi|left]).
      injection Hv as <-. exact Hi1. }
    destruct (IH df1) as (out & Hout & Hl & Hcells); [exact Hnd|exact Hlab| | |].
    { eapply Forall_impl; [exact Hcols|]. intros em Hem. apply set_column_in_subseteq, Hem. }
    { intros r1 em Hr1 Hem. apply list_elem_of_lookup in Hr1 as [i Hi].
      assert (is_Some (rows df !! i)) as [r Hr].
      { apply lookup_lt_is_Some. rewrite <- Hlen. eapply lookup_lt_Some, Hi. }
      rewrite (Hcell1 i r Hr) in Hi. injection Hi as <-.
      rewrite cell_insert_ne.
      - apply Hnum; [eapply list_elem_of_lookup_2, Hr|right; exact Hem].
      - rewrite Forall_forall in Hlab. apply Hlab, Hem. }
    exists out. split; [exact Hout|]. split; [congruence|].
    intros i r Hi. destruct (Hcells i _ (Hcell1 i r Hi)) as (r' & Hr' & Hin & Hout').
    exists r'. split; [exact Hr'|]. split.
    + intros e0 m0 Hem. apply elem_of_cons in Hem as [[= -> ->]|Hem].
      * rewrite Hout'; [apply cell_insert_eq|].
        intros Hc. apply list_elem_of_fmap in Hc as (e1 & Heq & He1).
        apply ci_label_inj in Heq. subst e1. contradiction.
      * rewrite (Hin e0 m0 Hem). rewrite cell_insert_ne; [reflexivity|].
        rewrite Forall_forall in Hlab. apply (Hlab (e0, m0) Hem).
    + intros c Hc. cbn [fmap list_fmap fst] in Hc. apply not_elem_of_cons in Hc as [Hne Hc].
      rewrite (Hout' c Hc). apply cell_insert_ne. congruence.
Qed.

Lemma native_means_NoDup : NoDup (native_means.*1).
Proof. apply (bool_decide_unpack _). vm_compute. exact I. Qed.

Lemma native_means_not_ci : Forall (fun em => forall e', ci_label e' <> em.1) native_means.
Proof. repeat constructor; intros e'; unfold ci_label; cbn [fst append]; discriminate. Qed.

Lemma native_means_finite :
  Forall (fun em => exists s m e, em.2 = S754_finite s m e) native_means.
Proof. repeat constructor; vm_compute; eauto. Qed.

Lemma native_means_ratio_one :
  Forall (fun em => F64.round2 (F64.div em.2 em.2) = F64.of_Z 1) native_means.
Proof. repeat constructor; vm_compute; reflexivity. Qed.

(** The ratio of one element at one row. *)
Lemma contamination_index_cells df :
  Forall (fun em => em.1 ∈ columns df) native_means ->
  (forall r em, r ∈ rows df -> em ∈ native_means -> is_number (cell r em.1) = true) ->
  exists out,
    contamination_index df = Ok out
    /\ length (rows out) = length (rows df)
    /\ (forall i r, rows df !! i = Some r ->
          exists r', rows out !! i = Some r'
            /\ (forall e m, (e, m) ∈ native_means ->
                  cell r' (ci_label e)
                  = VFloat (F64.round2 (F64.div (to_float (cell r e)) m)))
            /\ cell r' "ICI"
               = VFloat (F64.round2 (F64.nanmean
                   ((fun em => F64.round2 (F64.div (to_float (cell r em.1)) em.2))
                      <$> native_means)))
            /\ cell r' "ICI_Class" = VStr (classify_ici (to_float (cell r' "ICI")))).
Proof.
  intros Hcols Hnum.
  destruct (add_ratios_cells native_means df native_means_NoDup native_means_not_ci Hcols Hnum)
    as (out1 & Hout1 & Hlen1 & Hcells).
  unfold contamination_index. rewrite Hout1. cbn.
  eexists. split; [reflexivity|]. rewrite !rows_set_column_fmap. split.
  { rewrite !length_fmap. exact Hlen1. }
  intros i r Hi. destruct (Hcells i r Hi) as (r1 & Hr1 & Hratio & _).
  eexists. split; [rewrite !list_lookup_fmap, Hr1; reflexivity|].
  assert (Hici : row_ici r1
                 = F64.round2 (F64.nanmean
                     ((fun em => F64.round2 (F64.div (to_float (cell r em.1)) em.2))
                        <$> native_means))).
  { unfold row_ici, ci_columns. rewrite <- list_fmap_compose. do 2 f_equal.
    apply Forall_fmap_ext, Forall_forall. intros [e m] Hem. cbn.
    rewrite (Hratio e m Hem). reflexivity. }
  split; [|split].
  - intros e m Hem. rewrite !cell_insert_ne by (unfold ci_label; cbn [append]; discriminate).
    apply Hratio, Hem.
  - rewrite cell_insert_ne by discriminate. rewrite cell_insert_eq, Hici. reflexivity.
  - rewrite cell_insert_eq. rewrite (cell_insert_ne _ "ICI_Class" "ICI") by discriminate.
    reflexivity.
Qed.

Lemma add_ratios_columns means df out c :
  add_ratios means df = Ok out ->
  c ∈ columns df \/ c ∈ ci_label <$> means.*1 ->
  c ∈ columns out.
Proof.
  revert df. induction means as [|[e m] means IH]; intros df Hout Hc.
  - injection Hout as <-. destruct Hc as [Hc|Hc]; [exact Hc|inversion Hc].
  - cbn [add_ratios] in Hout. case_bool_decide; [|discriminate].
    destruct (traverse (ratio_cell m) (get_column df e)) as [vals|]; [|discriminate].
    cbn in Hout. apply (IH _ Hout).
    destruct Hc as [Hc|Hc]; [left; apply set_column_in_subseteq, Hc|].
    cbn [fmap list_fmap fst] in Hc. apply elem_of_cons in Hc as [->|Hc]; [left|right; exact Hc].
    unfold set_column. cbn [columns]. case_bool_decide; [assumption|].
    apply elem_of_app. right. left.
Qed.

Lemma set_column_label_in df c vals : c ∈ columns (set_column df c vals).
Proof.
  unfold set_column. cbn [columns]. case_bool_decide; [assumption|].
  apply elem_of_app. right. left.
Qed.

Lemma baseline_ici :
  F64.round2 (F64.div (F64.sum ((fun _ => F64.of_Z 1) <$> native_means)) (F64.of_Z 7))
  = F64.of_Z 1.
Proof. vm_compute. reflexivity. Qed.

Lemma classify_ici_one : classify_ici (F64.of_Z 1) = "Low Contamination"%string.
Proof. vm_compute. reflexivity. Qed.

Lemma ratios_mean (r : gmap string value) :
  (forall em, em ∈ native_means -> exists f, cell r em.1 = VFloat f /\ F64.is_nan f = false) ->
  F64.nanmean ((fun em => F64.round2 (F64.div (to_float (cell r em.1)) em.2)) <$> native_means)
  = F64.div (F64.sum ((fun em => F64.round2 (F64.div (to_float (cell r em.1)) em.2))
                        <$> native_means))
            (F64.of_Z 7).
Proof.
  intros Hval. rewrite nanmean_complete.
  - rewrite length_fmap. reflexivity.
  - apply Forall_fmap, Forall_forall. intros em Hem. unfold compose.
    destruct (Hval em Hem) as (f & -> & Hf).
    pose proof native_means_finite as Hfin. rewrite Forall_forall in Hfin.
    destruct (Hfin em Hem) as (s & m & e & ->). apply ratio_not_nan, Hf.
Qed.

Lemma baseline_ratios (r : gmap string value) :
  (forall e m, (e, m) ∈ native_means -> cell r e = VFloat m) ->
  (fun em => F64.round2 (F64.div (to_float (cell r em.1)) em.2)) <$> native_means
  = (fun _ => F64.of_Z 1) <$> native_means.
Proof.
  intros Hbase. apply Forall_fmap_ext, Forall_forall. intros [e m] Hem. cbn [fst snd].
  rewrite (Hbase e m Hem). cbn [to_float].
  pose proof native_means_ratio_one as H1. rewrite Forall_forall in H1.
  exact (H1 (e, m) Hem).
Qed.

Lemma contamination_index_columns df out :
  contamination_index df = Ok out ->
  Forall (fun c => c ∈ columns out) (ci_columns ++ ["ICI"; "ICI_Class"]%string).
Proof.
  unfold contamination_index. intros Hout.
  destruct (add_ratios native_means df) as [df1|] eqn:H1; [|discriminate].
  cbn [mbind result_bind] in Hout. injection Hout as <-. apply Forall_app. split.
  - apply Forall_forall. intros c Hc.
    apply set_column_in_subseteq, set_column_in_subseteq.
    apply (add_ratios_columns _ _ _ _ H1). right.
    unfold ci_columns in Hc. rewrite <- list_fmap_compose. exact Hc.
  - repeat constructor; [apply set_column_in_subseteq|]; apply set_column_label_in.
Qed.

Lemma baseline_row (r r' : gmap string value) ici :
  (forall e m, (e, m) ∈ native_means ->
     cell r' (ci_label e) = VFloat (F64.round2 (F64.div (to_float (cell r e)) m))) ->
  ici = F64.round2 (F64.div
          (F64.sum ((fun em => F64.round2 (F64.div (to_float (cell r em.1)) em.2))
                      <$> native_means))
          (F64.of_Z 7)) ->
  cell r' "ICI_Class" = VStr (classify_ici ici) ->
  (forall e m, (e, m) ∈ native_means -> cell r e = VFloat m) ->
  (forall e m, (e, m) ∈ native_means -> cell r' (ci_label e) = VFloat (F64.of_Z 1))
  /\ ici = F64.of_Z 1
  /\ cell r' "ICI_Class" = VStr "Low Contamination".
Proof.
  intros Hratio Hici Hclass Hbase.
  assert (Hone : ici = F64.of_Z 1).
  { rewrite Hici, (baseline_ratios r Hbase). exact baseline_ici. }
  split; [|split; [exact Hone|]].
  - intros e m Hem. rewrite (Hratio e m Hem), (Hbase e m Hem).
    pose proof native_means_ratio_one as H1. rewrite Forall_forall in H1.
    exact (f_equal VFloat (H1 (e, m) Hem)).
  - rewrite Hclass, Hone. exact (f_equal VStr classify_ici_one).
Qed.

Lemma to_float_VFloat f : to_float (VFloat f) = f.
Proof. reflexivity. Qed.

(** C1: on a frame whose seven element columns hold floats and no NaN,
    every row gets, for each element, the column [CI_<element>] equal to
    the value divided by the element's baseline and rounded to 2
    decimals; ICI is the mean of the seven ratios rounded to 2 decimals;
    the class is "Low Contamination" when ICI <= 1, "Moderate
    Contamination" when 1 < ICI <= 3 and "High Contamination" when
    ICI > 3.  A row that sits on the baselines has every ratio and ICI
    equal to 1.0 and the class "Low Contamination". *)
Theorem contamination_index_rows (df : DataFrame) :
  Forall (fun em => em.1 ∈ columns df) native_means ->
  (forall r em, r ∈ rows df -> em ∈ native_means ->
     exists f, cell r em.1 = VFloat f /\ F64.is_nan f = false) ->
  exists out,
    contamination_index df = Ok out
    /\ length (rows out) = length (rows df)
    /\ Forall (fun c => c ∈ columns out) (ci_columns ++ ["ICI"; "ICI_Class"]%string)
    /\ forall i r, rows df !! i = Some r ->
        exists r' ici,
          rows out !! i = Some r'
          /\ (forall e m, (e, m) ∈ native_means ->
                cell r' (ci_label e)
                = VFloat (F64.round2 (F64.div (to_float (cell r e)) m)))
          /\ cell r' "ICI" = VFloat ici
          /\ ici = F64.round2 (F64.div
                     (F64.sum ((fun em => F64.round2 (F64.div (to_float (cell r em.1)) em.2))
                                 <$> native_means))
                     (F64.of_Z 7))
          /\ cell r' "ICI_Class" = VStr (classify_ici ici)
          /\ (F64.leb ici (F64.of_Z 1) = true ->
              cell r' "ICI_Class" = VStr "Low Contamination")
          /\ (F64.ltb (F64.of_Z 1) ici = true -> F64.leb ici (F64.of_Z 3) = true ->
              cell r' "ICI_Class" = VStr "Moderate Contamination")
          /\ (F64.ltb (F64.of_Z 3) ici = true ->
              cell r' "ICI_Class" = VStr "High Contamination")
          /\ ((forall e m, (e, m) ∈ native_means -> cell r e = VFloat m) ->
              (forall e m, (e, m) ∈ native_means ->
                 cell r' (ci_label e) = VFloat (F64.of_Z 1))
              /\ ici = F64.of_Z 1
              /\ cell r' "ICI_Class" = VStr "Low Contamination").
Proof.
  intros Hcols Hval.
  assert (Hnum : forall r em, r ∈ rows df -> em ∈ native_means ->
            is_number (cell r em.1) = true).
  { intros r em Hr Hem. destruct (Hval r em Hr Hem) as (f & -> & _). reflexivity. }
  destruct (contamination_index_cells df Hcols Hnum) as (out & Hout & Hlen & Hcells).
  exists out. split; [exact Hout|]. split; [exact Hlen|].
  split; [exact (contamination_index_columns df out Hout)|].
  intros i r Hi. destruct (Hcells i r Hi) as (r' & Hr' & Hratio & Hici & Hclass).
  assert (Hr : r ∈ rows df) by (eapply list_elem_of_lookup_2, Hi).
  rewrite ratios_mean in Hici by (intros em Hem; apply Hval; assumption).
  rewrite Hici, to_float_VFloat in Hclass.
  eexists r', _. split; [exact Hr'|]. split; [exact Hratio|]. split; [exact Hici|].
  split; [reflexivity|]. split; [exact Hclass|].
  split; [intros H; rewrite Hclass; exact (f_equal VStr (classify_ici_low _ H))|].
  split; [intros H1 H3; rewrite Hclass; exact (f_equal VStr (classify_ici_moderate _ H1 H3))|].
  split; [intros H; rewrite Hclass; exact (f_equal VStr (classify_ici_high _ H))|].
  intros Hbase. exact (baseline_row r r' _ Hratio eq_refl Hclass Hbase).
Qed.

Lemma contamination_index_rows_witness :
  exists out,
    contamination_index element_frame = Ok out
    /\ length (rows out) = length (rows element_frame).
Proof.
  destruct (contamination_index_rows element_frame) as (out & Hout & Hlen & _).
  - apply (bool_decide_unpack _). vm_compute. exact I.
  - intros r em Hr Hem. apply list_elem_of_In in Hr, Hem.
    cbn [element_frame rows native_means In] in Hr, Hem.
    destruct Hr as [<-|[<-|[]]];
      destruct Hem as [<-|[<-|[<-|[<-|[<-|[<-|[<-|[]]]]]]]];
      eexists; split; vm_compute; reflexivity.
  - exists out. split; [exact Hout|exact Hlen].
Defined.

(** On the baselines the index is 1.0 and the class is low; at 3.01 times
    the baselines the index is 3.01 and the class is high. *)
Example contamination_index_element_frame :
  exists out,
    contamination_index element_frame = Ok out
    /\ get_column out "CI_As" = [VFloat (F64.of_Z 1); VFloat (F64.decimal 301 2)]
    /\ get_column out "ICI" = [VFloat (F64.of_Z 1); VFloat (F64.decimal 301 2)]
    /\ get_column out "ICI_Class"
       = [VStr "Low Contamination"; VStr "High Contamination"].
Proof.
  eexists. split; [vm_compute; reflexivity|].
  repeat split; vm_compute; reflexivity.
Qed.

(** ** The script as a whole *)

Lemma bind_Continue {A B} (m : script A) (f : A -> script B) ws ws' b :
  (m ≫= f) ws = (ws', Continue b) ->
  exists a ws1, m ws = (ws1, Continue a) /\ f a ws1 = (ws', Continue b).
Proof.
  unfold mbind, script_bind. destruct (m ws) as [ws1 [a|msg|e]]; [eauto|discriminate..].
Qed.

Lemma lift_Continue {A} (r : result A) ws ws' a :
  lift r ws = (ws', Continue a) -> r = Ok a /\ ws' = ws.
Proof. unfold lift. destruct r; intros [= <- <-]; auto. Qed.

Lemma mret_Continue {A} (x a : A) ws ws' :
  (mret x : script A) ws = (ws', Continue a) -> a = x /\ ws' = ws.
Proof. intros [= <- <-]. auto. Qed.

Lemma set_column_notin df c c' vals :
  c <> c' -> c ∉ columns df -> c ∉ columns (set_column df c' vals).
Proof.
  intros Hne Hc. unfold set_column. cbn [columns]. case_bool_decide; [exact Hc|].
  rewrite elem_of_app, list_elem_of_singleton. tauto.
Qed.

Lemma dropna_columns subset df out : dropna subset df = Ok out -> columns out = columns df.
Proof.
  unfold dropna. destruct (filter _ subset); [|discriminate]. intros [= <-]. reflexivity.
Qed.

Lemma sample_count_stage_notin df ws ws' out c :
  sample_count_stage df ws = (ws', Continue out) ->
  c <> "Sample Count"%string -> c ∉ columns df -> c ∉ columns out.
Proof.
  unfold sample_count_stage. case_bool_decide as Hdec.
  - intros H Hne Hc. apply bind_Continue in H as (vals & ws1 & _ & H).
    apply mret_Continue in H as [-> _]. apply set_column_notin; auto.
  - intros H _ Hc. apply bind_Continue in H as (u & ws1 & _ & H).
    apply mret_Continue in H as [-> _]. exact Hc.
Qed.

Lemma period_stage_notin df ws ws' out c :
  period_stage df ws = (ws', Continue out) ->
  c <> "Period"%string -> c ∉ columns df -> c ∉ columns out.
Proof.
  unfold period_stage. case_bool_decide as Hdec.
  - intros H Hne Hc. apply bind_Continue in H as (vals & ws1 & _ & H).
    apply mret_Continue in H as [-> _]. apply set_column_notin; auto.
  - intros H _ Hc. apply bind_Continue in H as (u & ws1 & _ & H).
    apply mret_Continue in H as [-> _]. exact Hc.
Qed.

Lemma latest_stage_columns ext df ws ws' out :
  latest_stage ext df ws = (ws', Continue out) -> columns out = columns df.
Proof.
  unfold latest_stage. destruct (_ && _).
  - intros H. apply lift_Continue in H as [H _]. unfold keep_latest in H.
    case_bool_decide as Hdec; [|discriminate]. destruct (forallb _ _); [|discriminate].
    injection H as <-. reflexivity.
  - intros H. apply bind_Continue in H as (u & ws1 & _ & H).
    apply mret_Continue in H as [-> _]. reflexivity.
Qed.

Lemma replace_less_than_columns pf cols df out :
  Forall (fun c => c ∈ columns df) cols ->
  replace_less_than pf cols df = Ok out -> columns out = columns df.
Proof.
  revert df. induction cols as [|column cols IH]; intros df Hcols; simpl.
  - intros [= <-]. reflexivity.
  - apply Forall_cons in Hcols as [Hcol Hcols].
    destruct (traverse _ _) as [vals|]; [|discriminate]. cbn [mbind result_bind].
    intros H. apply IH in H.
    + rewrite H. apply columns_set_column_in, Hcol.
    + rewrite columns_set_column_in by exact Hcol. exact Hcols.
Qed.

Lemma normalize_censored_columns pf df out :
  normalize_censored pf df = Ok out -> columns out = columns df.
Proof.
  apply replace_less_than_columns, Forall_forall.
  intros c Hc. apply elem_of_columns_with_less_than in Hc. tauto.
Qed.

(** Line 93 needs every non-predictive column. *)
Lemma imputation_stage_needs ext df ws ws' out c :
  imputation_stage ext df ws = (ws', Continue out) ->
  c ∈ non_predictive_columns -> c ∈ columns df.
Proof.
  unfold imputation_stage. intros H Hc.
  apply bind_Continue in H as (data & ws1 & _ & H).
  apply bind_Continue in H as (df_imputed & ws2 & _ & H).
  apply bind_Continue in H as (kept & ws3 & H & _).
  apply lift_Continue in H as [H _]. unfold select_columns in H.
  destruct (filter (fun c => c ∉ columns df) non_predictive_columns) as [|a l] eqn:Hf;
    [|discriminate].
  destruct (decide (c ∈ columns df)) as [|Hn]; [assumption|].
  exfalso. assert (Hin : c ∈ filter (fun c => c ∉ columns df) non_predictive_columns)
    by (apply list_elem_of_filter; auto).
  rewrite Hf in Hin. inversion Hin.
Qed.

(** C5, what the code does instead: when 'Site No.1', 'Year' or
    'Site Num' is absent, no run reaches the download, whatever the
    libraries do: the stage of that column is skipped with a warning,
    but line 93 indexes the frame with all five non-predictive labels. *)
Theorem missing_optional_column_no_output
    (ext : Externals) (remove_duplicates : bool) (df : DataFrame) (c : string) :
  c ∈ ["Site No.1"; "Year"; "Site Num"]%string ->
  c ∉ columns df ->
  forall out, ending (run_script ext remove_duplicates df) <> Finished out.
Proof.
  intros Hc Habs out Hend.
  assert (Hfacts : c ∈ non_predictive_columns
                   /\ c <> "Sample Count"%string /\ c <> "Period"%string).
  { repeat (apply elem_of_cons in Hc as [->|Hc];
            [split; [apply (bool_decide_unpack _); vm_compute; exact I
                    |split; discriminate]|]).
    inversion Hc. }
  destruct Hfacts as (Hnp & Hsc & Hpe).
  unfold run_script in Hend.
  destruct (pipeline ext remove_duplicates df []) as [ws [final|msg|e]] eqn:Hp;
    [|discriminate..].
  clear Hend. unfold pipeline in Hp.
  apply bind_Continue in Hp as (u & ws0 & _ & Hp).
  apply bind_Continue in Hp as (df1 & ws1 & H1 & Hp).
  apply lift_Continue in H1 as [H1 _]. apply dropna_columns in H1.
  apply bind_Continue in Hp as (df2 & ws2 & H2 & Hp).
  apply mret_Continue in H2 as [-> _].
  apply bind_Continue in Hp as (df3 & ws3 & H3 & Hp).
  apply bind_Continue in Hp as (df4 & ws4 & H4 & Hp).
  apply bind_Continue in Hp as (df5 & ws5 & H5 & Hp).
  apply bind_Continue in Hp as (df6 & ws6 & H6 & Hp).
  apply bind_Continue in Hp as (df7 & ws7 & H7 & _).
  apply lift_Continue in H6 as [H6 _]. apply normalize_censored_columns in H6.
  apply latest_stage_columns in H5.
  apply (imputation_stage_needs _ _ _ _ _ c) in H7; [|exact Hnp].
  rewrite H6, H5 in H7. revert H7.
  eapply period_stage_notin; [exact H4|exact Hpe|].
  eapply sample_count_stage_notin; [exact H3|exact Hsc|].
  destruct remove_duplicates; cbn [drop_duplicates columns]; rewrite H1; exact Habs.
Qed.

Lemma missing_optional_column_no_output_witness :
  ~ exists out, ending (run_script plain_externals false no_year_frame) = Finished out.
Proof.
  intros [out Hout].
  apply (missing_optional_column_no_output plain_externals false no_year_frame "Year"
           ltac:(apply (bool_decide_unpack _); vm_compute; exact I)
           ltac:(apply (bool_decide_unpack _); vm_compute; exact I) out Hout).
Defined.

(** Without the 'Year' column the run warns twice and then ends on the
    KeyError of line 93. *)
Example run_without_year :
  run_script plain_externals false no_year_frame
  = mkRun [ "Column 'Year' is missing. Period assignment skipped.";
            "Columns 'Site Num' or 'Period' are missing. Filtering latest samples skipped." ]%string
          (Crashed (KeyError ["Year"; "Period"]%string)).
Proof. vm_compute. reflexivity. Qed.

Lemma bind_crash {A B} (m : script A) (f : A -> script B) ws ws' e :
  m ws = (ws', Crash e) -> (m ≫= f) ws = (ws', Crash e).
Proof. intros H. unfold mbind, script_bind. rewrite H. reflexivity. Qed.

Lemma bind_continue {A B} (m : script A) (f : A -> script B) ws ws' a :
  m ws = (ws', Continue a) -> (m ≫= f) ws = f a ws'.
Proof. intros H. unfold mbind, script_bind. rewrite H. reflexivity. Qed.


Lemma traverse_sample_count_raise l v :
  v ∈ l ->
  sample_count_of_cell v = Raise (ValueError "cannot convert float NaN to integer") ->
  traverse sample_count_of_cell l = Raise (ValueError "cannot convert float NaN to integer").
Proof.
  induction 1 as [v l|v y l _ IH]; intros Hv; cbn [traverse].
  - rewrite Hv. reflexivity.
  - destruct (sample_count_of_cell y) as [z|e] eqn:Hy; cbn [mbind result_bind].
    + rewrite (IH Hv). reflexivity.
    + destruct y as [| | |s]; cbn in Hy; try (injection Hy as <-; reflexivity).
      destruct (re_search_suffix s) as [[d1 d2]|]; [discriminate|].
      injection Hy as <-. reflexivity.
Qed.

Lemma extract_sample_count_raise col v :
  v ∈ col ->
  (forall s, v = VStr s -> re_search_suffix s = None) ->
  extract_sample_count col = Raise (ValueError "cannot convert float NaN to integer")
  \/ extract_sample_count col
     = Raise (AttributeError "Can only use .str accessor with string values!").
Proof.
  intros Hv Hbad. unfold extract_sample_count.
  destruct col as [|v0 col]; [inversion Hv|].
  destruct (existsb is_str (v0 :: col)); [left|right; reflexivity].
  apply (traverse_sample_count_raise _ v Hv).
  destruct v as [| | |s]; try reflexivity. cbn. rewrite (Hbad s eq_refl). reflexivity.
Qed.

Lemma sample_count_stage_crash df ws (r : gmap string value) :
  "Site No.1"%string ∈ columns df ->
  r ∈ rows df ->
  (forall s, cell r "Site No.1" = VStr s -> re_search_suffix s = None) ->
  exists e,
    sample_count_stage df ws = (ws, Crash e)
    /\ (e = ValueError "cannot convert float NaN to integer"
        \/ e = AttributeError "Can only use .str accessor with string values!").
Proof.
  intros Hsite Hr Hbad.
  assert (Hv : cell r "Site No.1" ∈ get_column df "Site No.1").
  { unfold get_column. apply list_elem_of_fmap. exists r. auto. }
  unfold sample_count_stage. rewrite bool_decide_eq_true_2 by exact Hsite.
  destruct (extract_sample_count_raise _ _ Hv Hbad) as [He|He];
    eexists; (split; [apply bind_crash; unfold lift; rewrite He; reflexivity|auto]).
Qed.



(** The identifier "A7-2" has one digit after the dash: the run ends on
    the ValueError of [astype(int)]. *)
Example run_bad_suffix :
  run_script plain_externals false bad_suffix_frame
  = mkRun [] (Crashed (ValueError "cannot convert float NaN to integer")).
Proof. vm_compute. reflexivity. Qed.

(** A complete run: the sample frame yields one row per (site, period),
    with the period and the class of each. *)
Example run_sample_frame :
  exists out,
    run_script plain_externals false sample_frame = mkRun [] (Finished out)
    /\ get_column out "Site No.1" = [VStr "A7-02"; VStr "A7-01"]
    /\ get_column out "Period" = [VStr "1995-2000"; VStr "Unknown"]
    /\ get_column out "ICI_Class"
       = [VStr "High Contamination"; VStr "Moderate Contamination"].
Proof.
  eexists. split; [vm_compute; reflexivity|].
  repeat split; vm_compute; reflexivity.
Qed.

(** ** The selector's input as the earlier stages leave it *)

Lemma traverse_Ok_Forall2 {A B} (f : A -> result B) (l : list A) ys :
  traverse f l = Ok ys -> Forall2 (fun x y => f x = Ok y) l ys.
Proof.
  revert ys. induction l as [|x l IH]; intros ys; cbn [traverse].
  - intros [= <-]. constructor.
  - destruct (f x) as [y|] eqn:Hx; cbn [mbind result_bind]; [|discriminate].
    destruct (traverse f l) as [ys'|]; cbn [mbind result_bind]; [|discriminate].
    intros [= <-]. constructor; [exact Hx|apply IH; reflexivity].
Qed.

Lemma sample_count_of_cell_int v w :
  sample_count_of_cell v = Ok w -> exists z, w = VInt z.
Proof.
  destruct v as [| | |s]; cbn [sample_count_of_cell]; try discriminate.
  destruct (re_search_suffix s) as [[d1 d2]|]; [|discriminate].
  intros [= <-]. eauto.
Qed.

(** Line 55 leaves an int in every 'Sample Count' cell. *)
Lemma sample_count_stage_ints df ws ws' out :
  "Site No.1"%string ∈ columns df ->
  sample_count_stage df ws = (ws', Continue out) ->
  forall r, r ∈ rows out -> exists z, cell r "Sample Count" = VInt z.
Proof.
  intros Hsite Hrun r Hr. unfold sample_count_stage in Hrun.
  rewrite bool_decide_eq_true_2 in Hrun by exact Hsite.
  apply bind_Continue in Hrun as (vals & ws1 & Hvals & Hrun).
  apply mret_Continue in Hrun as [-> _]. apply lift_Continue in Hvals as [Hvals _].
  unfold extract_sample_count in Hvals.
  assert (Hall : Forall (fun v => exists z, v = VInt z) vals).
  { destruct (get_column df "Site No.1") as [|v0 col] eqn:Hcol.
    - injection Hvals as <-. constructor.
    - destruct (existsb is_str (v0 :: col)); [|discriminate].
      apply traverse_Ok_Forall2 in Hvals. clear -Hvals.
      induction Hvals as [|x y l k Hxy _ IH]; constructor;
        [eapply sample_count_of_cell_int, Hxy|exact IH]. }
  unfold set_column in Hr. cbn [rows] in Hr.
  apply list_elem_of_lookup in Hr as [i Hi].
  apply lookup_zip_with_Some in Hi as (r0 & v & -> & _ & Hv).
  rewrite cell_insert_eq. rewrite Forall_forall in Hall.
  eapply Hall, list_elem_of_lookup_2, Hv.
Qed.

(** Line 68 does not touch the other columns. *)
Lemma period_stage_keeps df ws ws' out c :
  c <> "Period"%string ->
  period_stage df ws = (ws', Continue out) ->
  forall r', r' ∈ rows out -> exists r, r ∈ rows df /\ cell r' c = cell r c.
Proof.
  intros Hne Hrun r' Hr'. unfold period_stage in Hrun. case_bool_decide as Hyear.
  - apply bind_Continue in Hrun as (vals & ws1 & _ & Hrun).
    apply mret_Continue in Hrun as [-> _].
    unfold set_column in Hr'. cbn [rows] in Hr'.
    apply list_elem_of_lookup in Hr' as [i Hi].
    apply lookup_zip_with_Some in Hi as (r0 & v & -> & Hr0 & _).
    exists r0. split; [eapply list_elem_of_lookup_2, Hr0|].
    apply cell_insert_ne. congruence.
  - apply bind_Continue in Hrun as (u & ws1 & _ & Hrun).
    apply mret_Continue in Hrun as [-> _]. eauto.
Qed.

(** * Further properties of the script *)

(** ** Duplicate rows (lines 44-51) *)

Lemma drop_seen_elem seen l (x : gmap string value) :
  x ∈ drop_seen seen l <-> x ∈ l /\ x ∉ seen.
Proof.
  revert seen. induction l as [|y l IH]; intros seen; cbn [drop_seen].
  - split; [intros H; inversion H|intros [H _]; inversion H].
  - case_bool_decide as Hy.
    + rewrite IH, elem_of_cons. split; [tauto|].
      intros [[->|Hx] Hs]; [contradiction|auto].
    + rewrite !elem_of_cons, IH, not_elem_of_cons. split.
      * intros [->|(Hx & Hne & Hs)]; auto.
      * intros [[->|Hx] Hs]; [auto|].
        destruct (decide (x = y)) as [->|Hne]; auto.
Qed.

Lemma drop_seen_NoDup seen l : NoDup (drop_seen seen l).
Proof.
  revert seen. induction l as [|y l IH]; intros seen; cbn [drop_seen]; [constructor|].
  case_bool_decide as Hy; [apply IH|].
  constructor; [|apply IH]. rewrite drop_seen_elem, not_elem_of_cons. tauto.
Qed.

Lemma drop_seen_sublist seen l : drop_seen seen l `sublist_of` l.
Proof.
  revert seen. induction l as [|y l IH]; intros seen; cbn [drop_seen]; [constructor|].
  case_bool_decide; [apply sublist_cons, IH|apply sublist_skip, IH].
Qed.

Lemma drop_seen_id seen l :
  NoDup l -> (forall x, x ∈ l -> x ∉ seen) -> drop_seen seen l = l.
Proof.
  intros Hnd. revert seen. induction Hnd as [|y l Hy Hnd IH]; intros seen Hs; [reflexivity|].
  cbn [drop_seen]. rewrite bool_decide_eq_false_2 by (apply Hs; left).
  f_equal. apply IH. intros x Hx. apply not_elem_of_cons. split.
  - intros ->. contradiction.
  - apply Hs. right. exact Hx.
Qed.

Lemma drop_seen_length_eq seen l :
  length (drop_seen seen l) = length l -> drop_seen seen l = l.
Proof.
  revert seen. induction l as [|y l IH]; intros seen; cbn [drop_seen]; [reflexivity|].
  case_bool_decide as Hy; cbn [length]; intros Hlen.
  - pose proof (sublist_length _ _ (drop_seen_sublist seen l)). lia.
  - f_equal. apply IH. lia.
Qed.

(** [drop_duplicates] keeps the columns, leaves no two equal rows, keeps
    the rows in their order, loses no row value, and changes nothing when
    run again. *)
Theorem drop_duplicates_spec (df : DataFrame) :
  columns (drop_duplicates df) = columns df
  /\ NoDup (rows (drop_duplicates df))
  /\ rows (drop_duplicates df) `sublist_of` rows df
  /\ (forall r, r ∈ rows (drop_duplicates df) <-> r ∈ rows df)
  /\ drop_duplicates (drop_duplicates df) = drop_duplicates df.
Proof.
  unfold drop_duplicates. cbn [columns rows].
  split; [reflexivity|]. split; [apply drop_seen_NoDup|].
  split; [apply drop_seen_sublist|]. split.
  - intros r. rewrite drop_seen_elem. split; [tauto|].
    intros Hr. split; [exact Hr|]. intros H; inversion H.
  - f_equal. apply drop_seen_id; [apply drop_seen_NoDup|].
    intros x _ H. inversion H.
Qed.

Lemma drop_duplicates_spec_witness : NoDup (rows (drop_duplicates duplicated_frame)).
Proof. apply (drop_duplicates_spec duplicated_frame). Defined.

Lemma duplicated_count seen l :
  (length (filter (fun b => b = true) (duplicated_from seen l))
   + length (drop_seen seen l) = length l)%nat.
Proof.
  revert seen. induction l as [|y l IH]; intros seen; cbn [duplicated_from drop_seen];
    [reflexivity|].
  case_bool_decide as Hy.
  - rewrite filter_cons_True by reflexivity. cbn [length]. rewrite <- (IH seen). lia.
  - rewrite filter_cons_False by discriminate. cbn [length].
    rewrite <- (IH (y :: seen)). lia.
Qed.

(** The number of duplicates reported at line 46 is the number of rows
    that [drop_duplicates] removes; it is below the number of rows, so
    the percentage of line 48 never divides by zero. *)
Theorem duplicates_count (df : DataFrame) :
  (duplicates df + length (rows (drop_duplicates df)) = length (rows df))%nat
  /\ (rows df <> [] -> duplicates df < length (rows df))%nat
  /\ (0 < duplicates df -> 0 < length (rows df))%nat
  /\ (duplicates df = 0%nat <-> NoDup (rows df)).
Proof.
  unfold duplicates, drop_duplicates. cbn [rows].
  pose proof (duplicated_count [] (rows df)) as Hc.
  split; [exact Hc|]. split; [|split].
  - intros Hne. destruct (rows df) as [|r l] eqn:Hr; [contradiction|].
    cbn [duplicated_from drop_seen] in *.
    rewrite bool_decide_eq_false_2 in * by (intros H; inversion H).
    rewrite filter_cons_False in * by discriminate. cbn [length] in *. lia.
  - lia.
  - split.
    + intros H0. rewrite H0 in Hc. cbn in Hc.
      assert (Heq : drop_seen [] (rows df) = rows df).
      { apply drop_seen_length_eq. lia. }
      rewrite <- Heq. apply drop_seen_NoDup.
    + intros Hnd. rewrite drop_seen_id in Hc; [lia|exact Hnd|].
      intros x _ H. inversion H.
Qed.

Lemma duplicates_count_witness :
  (duplicates duplicated_frame < length (rows duplicated_frame))%nat.
Proof.
  apply (duplicates_count duplicated_frame). cbn [duplicated_frame rows]. discriminate.
Defined.

(** Two of the four rows of the duplicated frame are duplicates. *)
Example duplicates_duplicated_frame :
  duplicates duplicated_frame = 2%nat
  /\ length (rows (drop_duplicates duplicated_frame)) = 2%nat.
Proof. split; vm_compute; reflexivity. Qed.

(** ** Sample count stage (lines 53-57) *)

Lemma extract_sample_count_ok col :
  Forall (fun v => exists s g, v = VStr s /\ re_search_suffix s = Some g) col ->
  exists vals, extract_sample_count col = Ok vals.
Proof.
  intros Hall. unfold extract_sample_count. destruct col as [|v0 col]; [eauto|].
  assert (Hstr : existsb is_str (v0 :: col) = true).
  { apply Forall_cons in Hall as [(s & g & -> & _) _]. reflexivity. }
  rewrite Hstr.
  destruct (traverse_Forall2 sample_count_of_cell (v0 :: col)) as (vals & Hv & _); [|eauto].
  eapply Forall_impl; [exact Hall|]. intros v (s & [d1 d2] & -> & Hs).
  cbn [sample_count_of_cell]. rewrite Hs. eauto.
Qed.

(** The extraction goes through exactly when every identifier is a str
    with the two-digit suffix; it then logs nothing. *)
Theorem sample_count_stage_succeeds_iff (df : DataFrame) (ws : list string) :
  "Site No.1"%string ∈ columns df ->
  (exists out, sample_count_stage df ws = (ws, Continue out))
  <-> (forall r, r ∈ rows df ->
         exists s g, cell r "Site No.1" = VStr s /\ re_search_suffix s = Some g).
Proof.
  intros Hsite. split.
  - intros [out Hrun] r Hr.
    destruct (cell r "Site No.1") as [| | |s] eqn:Hcell.
    1-3: destruct (sample_count_stage_crash df ws r Hsite Hr) as (e & He & _);
      [rewrite Hcell; discriminate|congruence].
    destruct (re_search_suffix s) as [g|] eqn:Hs; [eauto|].
    destruct (sample_count_stage_crash df ws r Hsite Hr) as (e & He & _);
      [|congruence].
    intros s' Hs'. rewrite Hcell in Hs'. injection Hs' as <-. exact Hs.
  - intros Hall. unfold sample_count_stage.
    rewrite bool_decide_eq_true_2 by exact Hsite.
    destruct (extract_sample_count_ok (get_column df "Site No.1")) as [vals Hvals].
    { unfold get_column. apply Forall_fmap, Forall_forall. intros r Hr. apply Hall, Hr. }
    eexists. erewrite bind_continue; [reflexivity|].
    unfold lift. rewrite Hvals. reflexivity.
Qed.

Lemma sample_count_stage_succeeds_iff_witness :
  exists out, sample_count_stage sample_frame [] = ([], Continue out).
Proof.
  apply (sample_count_stage_succeeds_iff sample_frame []).
  - apply (bool_decide_unpack _). vm_compute. exact I.
  - intros r Hr. apply list_elem_of_In in Hr. cbn [sample_frame rows In] in Hr.
    destruct Hr as [<-|[<-|[<-|[<-|[]]]]]; do 2 eexists; split; vm_compute; reflexivity.
Defined.

(** ** Period stage (lines 59-70) *)







(** ** Censored values: what is left and what fails (lines 78-81) *)

Lemma map_column_inv (f : value -> result value) (df : DataFrame) (src dst : string) vals :
  traverse f (get_column df src) = Ok vals ->
  length (rows (set_column df dst vals)) = length (rows df)
  /\ (forall i r, rows df !! i = Some r ->
        exists v, f (cell r src) = Ok v
                  /\ rows (set_column df dst vals) !! i = Some (<[dst := v]> r)).
Proof.
  intros Htr. apply traverse_Ok_Forall2 in Htr.
  assert (Hlen : length vals = length (rows df)).
  { apply Forall2_length in Htr. unfold get_column in Htr.
    rewrite length_fmap in Htr. symmetry. exact Htr. }
  split.
  - unfold set_column. cbn [rows]. rewrite length_zip_with. lia.
  - intros i r Hi.
    assert (Hc : get_column df src !! i = Some (cell r src)).
    { unfold get_column. rewrite list_lookup_fmap, Hi. reflexivity. }
    destruct (Forall2_lookup_l _ _ _ _ _ Htr Hc) as (v & Hv & Hfv).
    exists v. split; [exact Hfv|].
    unfold set_column. cbn [rows]. rewrite lookup_zip_with, Hi. cbn. rewrite Hv. reflexivity.
Qed.

Lemma traverse_Raise_inv {A B} (f : A -> result B) (l : list A) e :
  traverse f l = Raise e -> exists x, x ∈ l /\ f x = Raise e.
Proof.
  induction l as [|y l IH]; cbn [traverse]; [discriminate|].
  destruct (f y) as [z|e'] eqn:Hy; cbn [mbind result_bind].
  - destruct (traverse f l) as [zs|e'']; cbn [mbind result_bind]; [discriminate|].
    intros [= <-]. destruct (IH eq_refl) as (x & Hx & Hfx).
    exists x. split; [right; exact Hx|exact Hfx].
  - intros [= <-]. exists y. split; [left|exact Hy].
Qed.

Lemma halve_censored_Raise pf v e :
  halve_censored pf v = Raise e ->
  e = ValueError "could not convert string to float"
  /\ exists s, v = VStr s /\ startswith_lt s = true /\ pf (tail_str s) = None.
Proof.
  destruct v as [| | |s]; cbn [halve_censored]; try discriminate.
  destruct (startswith_lt s) eqn:Hs; [|discriminate].
  destruct (pf (tail_str s)) eqn:Hp; [discriminate|].
  intros [= <-]. split; [reflexivity|]. exists s. auto.
Qed.

Lemma halve_censored_output pf v w s :
  halve_censored pf v = Ok w -> w = VStr s -> startswith_lt s = false.
Proof.
  destruct v as [| | |s0]; cbn [halve_censored]; try (intros [= <-]; discriminate).
  destruct (startswith_lt s0) eqn:Hs0.
  - destruct (pf (tail_str s0)); [|discriminate]. intros [= <-]. discriminate.
  - intros [= <-] [= <-]. exact Hs0.
Qed.

(** When the loop of line 80 goes through, every value it met was readable. *)
Lemma replace_less_than_Ok_cells pf cols df out :
  replace_less_than pf cols df = Ok out ->
  forall c r, c ∈ cols -> r ∈ rows df -> exists w, halve_censored pf (cell r c) = Ok w.
Proof.
  revert df. induction cols as [|column cols IH]; intros df Hout c r Hc Hr;
    [inversion Hc|].
  cbn [replace_less_than] in Hout.
  destruct (traverse (halve_censored pf) (get_column df column)) as [vals|] eqn:Htr;
    [|discriminate].
  cbn [mbind result_bind] in Hout.
  destruct (map_column_inv _ df column column vals Htr) as [Hlen Hrows].
  apply list_elem_of_lookup in Hr as [i Hi].
  destruct (Hrows i r Hi) as (v & Hv & Hi1).
  destruct (decide (c = column)) as [->|Hne]; [eauto|].
  apply elem_of_cons in Hc as [Heq|Hc]; [contradiction|].
  destruct (IH _ Hout c _ Hc (list_elem_of_lookup_2 _ _ _ Hi1)) as [w Hw].
  rewrite cell_insert_ne in Hw by congruence. eauto.
Qed.

Lemma replace_less_than_Raise pf cols df e :
  replace_less_than pf cols df = Raise e ->
  e = ValueError "could not convert string to float".
Proof.
  revert df. induction cols as [|column cols IH]; intros df; cbn [replace_less_than];
    [discriminate|].
  destruct (traverse (halve_censored pf) (get_column df column)) as [vals|e'] eqn:Htr;
    cbn [mbind result_bind].
  - apply IH.
  - intros [= <-]. apply traverse_Raise_inv in Htr as (x & _ & Hx).
    apply halve_censored_Raise in Hx. tauto.
Qed.

Lemma columns_with_less_than_subset df :
  Forall (fun c => c ∈ columns df) (columns_with_less_than df).
Proof.
  apply Forall_forall. intros c Hc. apply elem_of_columns_with_less_than in Hc. tauto.
Qed.

Lemma marked_column_selected df c r s :
  c ∈ columns df -> r ∈ rows df -> cell r c = VStr s -> startswith_lt s = true ->
  c ∈ columns_with_less_than df.
Proof.
  intros Hc Hr Hcell Hs. apply elem_of_columns_with_less_than. split; [exact Hc|].
  exists s. split; [|apply startswith_contains, Hs].
  unfold get_column. apply list_elem_of_fmap. exists r. auto.
Qed.

Lemma normalize_censored_Ok_cells pf df out :
  normalize_censored pf df = Ok out ->
  columns out = columns df
  /\ length (rows out) = length (rows df)
  /\ (forall i r, rows df !! i = Some r ->
        exists r', rows out !! i = Some r'
          /\ (forall c, c ∈ columns_with_less_than df ->
                halve_censored pf (cell r c) = Ok (cell r' c))
          /\ (forall c, c ∉ columns_with_less_than df -> cell r' c = cell r c)).
Proof.
  intros Hout. unfold normalize_censored in Hout.
  destruct (replace_less_than_cells pf (columns_with_less_than df) df
              (columns_with_less_than_subset df)
              (replace_less_than_Ok_cells _ _ _ _ Hout))
    as (out' & Hout' & H).
  rewrite Hout in Hout'. injection Hout' as <-. exact H.
Qed.

Lemma normalize_censored_unmarked pf df out :
  normalize_censored pf df = Ok out ->
  forall r' c s, r' ∈ rows out -> c ∈ columns df -> cell r' c = VStr s ->
    startswith_lt s = false.
Proof.
  intros Hout r' c s Hr' Hc Hcell.
  destruct (normalize_censored_Ok_cells pf df out Hout) as (_ & Hlen & Hcells).
  apply list_elem_of_lookup in Hr' as [i Hi].
  assert (is_Some (rows df !! i)) as [r Hr].
  { apply lookup_lt_is_Some. rewrite <- Hlen. eapply lookup_lt_Some, Hi. }
  destruct (Hcells i r Hr) as (r0 & Hr0 & Hin & Hnotin).
  rewrite Hi in Hr0. injection Hr0 as <-.
  destruct (decide (c ∈ columns_with_less_than df)) as [Hsel|Hsel].
  - eapply halve_censored_output; [apply (Hin c Hsel)|exact Hcell].
  - destruct (startswith_lt s) eqn:Hs; [|reflexivity].
    exfalso. apply Hsel. rewrite (Hnotin c Hsel) in Hcell.
    eapply marked_column_selected; eauto. eapply list_elem_of_lookup_2, Hr.
Qed.

(** After the normalizer no value of any column begins with the marker,
    and running the normalizer again succeeds and changes no cell. *)
Theorem normalize_censored_settles
    (pf : string -> option spec_float) (df out : DataFrame) :
  normalize_censored pf df = Ok out ->
  (forall r' c s, r' ∈ rows out -> c ∈ columns out -> cell r' c = VStr s ->
     startswith_lt s = false)
  /\ exists out',
       normalize_censored pf out = Ok out'
       /\ columns out' = columns out
       /\ length (rows out') = length (rows out)
       /\ (forall i r', rows out !! i = Some r' ->
             exists r'', rows out' !! i = Some r'' /\ forall c, cell r'' c = cell r' c).
Proof.
  intros Hout.
  destruct (normalize_censored_Ok_cells pf df out Hout) as (Hcols & _ & _).
  assert (Hun : forall r' c s, r' ∈ rows out -> c ∈ columns out -> cell r' c = VStr s ->
            startswith_lt s = false).
  { intros r' c s Hr' Hc. rewrite Hcols in Hc.
    apply (normalize_censored_unmarked pf df out Hout r' c s Hr' Hc). }
  split; [exact Hun|].
  assert (Hid : forall c r', c ∈ columns_with_less_than out -> r' ∈ rows out ->
            halve_censored pf (cell r' c) = Ok (cell r' c)).
  { intros c r' Hc Hr'. apply halve_censored_unmarked. intros s Hs.
    apply (Hun r' c s Hr'); [|exact Hs].
    apply elem_of_columns_with_less_than in Hc. tauto. }
  destruct (replace_less_than_cells pf (columns_with_less_than out) out
              (columns_with_less_than_subset out))
    as (out' & Hout' & Hcols' & Hlen' & Hcells').
  { intros c r' Hc Hr'. rewrite (Hid c r' Hc Hr'). eauto. }
  exists out'. split; [exact Hout'|]. split; [exact Hcols'|]. split; [exact Hlen'|].
  intros i r' Hi. destruct (Hcells' i r' Hi) as (r'' & Hr'' & Hin & Hnotin).
  exists r''. split; [exact Hr''|]. intros c.
  destruct (decide (c ∈ columns_with_less_than out)) as [Hc|Hc]; [|apply Hnotin, Hc].
  specialize (Hin c Hc).
  rewrite (Hid c r' Hc (list_elem_of_lookup_2 _ _ _ Hi)) in Hin.
  injection Hin as <-. reflexivity.
Qed.

Lemma normalize_censored_settles_witness :
  exists out',
    normalize_censored float_of_decimal_text censored_frame_normalized = Ok out'
    /\ columns out' = columns censored_frame_normalized
    /\ length (rows out') = length (rows censored_frame_normalized)
    /\ (forall i r', rows censored_frame_normalized !! i = Some r' ->
          exists r'', rows out' !! i = Some r'' /\ forall c, cell r'' c = cell r' c).
Proof.
  apply (normalize_censored_settles float_of_decimal_text censored_frame
           censored_frame_normalized).
  vm_compute. reflexivity.
Defined.

(** A marked value that Python's [float] cannot read makes the
    normalizer raise the ValueError of that conversion. *)
Theorem normalize_censored_unreadable
    (pf : string -> option spec_float) (df : DataFrame)
    (c : string) (r : gmap string value) (s : string) :
  c ∈ columns df -> r ∈ rows df -> cell r c = VStr s ->
  startswith_lt s = true -> pf (tail_str s) = None ->
  normalize_censored pf df = Raise (ValueError "could not convert string to float").
Proof.
  intros Hc Hr Hcell Hs Hpf.
  destruct (normalize_censored pf df) as [out|e] eqn:Hrun.
  - exfalso. unfold normalize_censored in Hrun.
    destruct (replace_less_than_Ok_cells _ _ _ _ Hrun c r) as [w Hw];
      [eapply marked_column_selected; eauto|exact Hr|].
    rewrite Hcell in Hw. cbn [halve_censored] in Hw. rewrite Hs, Hpf in Hw. discriminate.
  - f_equal. eapply replace_less_than_Raise, Hrun.
Qed.

Lemma normalize_censored_unreadable_witness :
  normalize_censored float_of_decimal_text unreadable_frame
  = Raise (ValueError "could not convert string to float").
Proof.
  apply (normalize_censored_unreadable float_of_decimal_text unreadable_frame "Cd"
           (list_to_map [("Site No.1"%string, VStr "A7-02"); ("Cd"%string, VStr "<n.d.")])
           "<n.d.").
  - apply (bool_decide_unpack _). vm_compute. exact I.
  - right. left.
  - vm_compute. reflexivity.
  - vm_compute. reflexivity.
  - vm_compute. reflexivity.
Defined.

(** ** Building and joining frames (lines 90-93) *)

Lemma forallb_length_eq data (cols : list string) :
  forallb (fun row : list spec_float => (length row =? length cols)%nat) data = true
  <-> Forall (fun row : list spec_float => length row = length cols) data.
Proof.
  rewrite forallb_forall, Forall_forall. split; intros H row Hrow.
  - apply Nat.eqb_eq, H, list_elem_of_In, Hrow.
  - apply Nat.eqb_eq, H, list_elem_of_In, Hrow.
Qed.

Lemma filter_absent_nil (labels cols : list string) :
  filter (fun c => c ∉ cols) labels = [] <-> Forall (fun c => c ∈ cols) labels.
Proof.
  induction labels as [|c labels IH]; [split; [constructor|reflexivity]|].
  rewrite filter_cons, Forall_cons. destruct (decide (c ∉ cols)) as [Hc|Hc].
  - split; [discriminate|]. intros [Hin _]. contradiction.
  - rewrite IH. split; [|tauto]. intros H. split; [|exact H].
    destruct (decide (c ∈ cols)); [assumption|contradiction].
Qed.

(** ** Imputation stage (lines 83-97) *)

Lemma imputation_stage_inv ext df ws ws' out :
  imputation_stage ext df ws = (ws', Continue out) ->
  ws' = ws
  /\ Forall (fun c => c ∈ columns df) non_predictive_columns
  /\ exists data,
       fit_transform ext (numeric_block df (numerical_columns df)) = Some data
       /\ Forall (fun row => length row = length (numerical_columns df)) data
       /\ out = concat_axis1
                  {| columns := non_predictive_columns;
                     rows := restrict_row non_predictive_columns <$> rows df |}
                  {| columns := numerical_columns df;
                     rows := (fun row : list spec_float =>
                                list_to_map (zip (numerical_columns df) (VFloat <$> row)))
                             <$> data |}.
Proof.
  unfold imputation_stage. intros H.
  apply bind_Continue in H as (data & ws1 & Hfit & H).
  apply bind_Continue in H as (df_imputed & ws2 & Hframe & H).
  apply bind_Continue in H as (kept & ws3 & Hkept & H).
  apply mret_Continue in H as [-> ->].
  apply lift_Continue in Hfit as [Hfit ->].
  apply lift_Continue in Hframe as [Hframe ->].
  apply lift_Continue in Hkept as [Hkept ->].
  split; [reflexivity|].
  unfold select_columns in Hkept.
  destruct (filter (fun c => c ∉ columns df) non_predictive_columns) as [|a l] eqn:Hf;
    [|discriminate].
  injection Hkept as <-. split; [apply filter_absent_nil, Hf|].
  destruct (fit_transform ext _) as [data'|]; [|discriminate]. injection Hfit as ->.
  unfold frame_of_array in Hframe.
  destruct (forallb _ data) eqn:Hb; [|discriminate]. injection Hframe as <-.
  exists data. split; [reflexivity|]. split; [apply forallb_length_eq, Hb|reflexivity].
Qed.

(** The missing 'Cd' of the second row is filled by the imputer; the
    identifier and the other non-predictive cells are carried over. *)
Example imputation_stage_imputation_frame :
  exists out,
    imputation_stage plain_externals imputation_frame [] = ([], Continue out)
    /\ columns out
       = ["Site No.1"; "Site Num"; "Year"; "Sample Count"; "Period"; "As"; "Cd"]%string
    /\ get_column out "Site No.1" = [VStr "A7-01"; VStr "A9-01"]
    /\ get_column out "Cd" = [VFloat (F64.decimal 2 1); VFloat (F64.of_Z 0)].
Proof.
  eexists. split; [vm_compute; reflexivity|]. repeat split; vm_compute; reflexivity.
Qed.

(** ** Whole runs *)

Lemma validate_Continue df ws ws' u :
  validate df ws = (ws', Continue u) -> missing_critical df = [] /\ ws' = ws.
Proof.
  unfold validate. destruct (missing_critical df); [|discriminate].
  intros [= <-]. auto.
Qed.

Lemma sample_count_stage_log df ws ws' out :
  sample_count_stage df ws = (ws', Continue out) ->
  "Site No.1"%string ∈ columns df -> ws' = ws.
Proof.
  unfold sample_count_stage. intros H Hin. rewrite bool_decide_eq_true_2 in H by exact Hin.
  apply bind_Continue in H as (vals & ws1 & Hv & H).
  apply mret_Continue in H as [_ ->]. apply lift_Continue in Hv as [_ ->]. reflexivity.
Qed.

Lemma period_stage_log df ws ws' out :
  period_stage df ws = (ws', Continue out) ->
  "Year"%string ∈ columns df -> ws' = ws.
Proof.
  unfold period_stage. intros H Hin. rewrite bool_decide_eq_true_2 in H by exact Hin.
  apply bind_Continue in H as (vals & ws1 & Hv & H).
  apply mret_Continue in H as [_ ->]. apply lift_Continue in Hv as [_ ->]. reflexivity.
Qed.

Lemma latest_stage_log ext df ws ws' out :
  latest_stage ext df ws = (ws', Continue out) ->
  "Site Num"%string ∈ columns df -> "Period"%string ∈ columns df -> ws' = ws.
Proof.
  unfold latest_stage. intros H H1 H2. rewrite !bool_decide_eq_true_2 in H by assumption.
  cbn [andb] in H. apply lift_Continue in H as [_ ->]. reflexivity.
Qed.

Lemma contamination_index_keeps_columns df out c :
  contamination_index df = Ok out -> c ∈ columns df -> c ∈ columns out.
Proof.
  unfold contamination_index. intros Hout Hc.
  destruct (add_ratios native_means df) as [df1|] eqn:H1; [|discriminate].
  cbn [mbind result_bind] in Hout. injection Hout as <-.
  apply set_column_in_subseteq, set_column_in_subseteq.
  apply (add_ratios_columns _ _ _ _ H1). left. exact Hc.
Qed.

(** A run that reaches the download has logged no warning, and its frame
    has the five non-predictive columns, the seven ratio columns, 'ICI'
    and 'ICI_Class'. *)
Theorem finished_run_no_warning
    (ext : Externals) (remove_duplicates : bool) (df out : DataFrame) :
  ending (run_script ext remove_duplicates df) = Finished out ->
  warnings (run_script ext remove_duplicates df) = []
  /\ Forall (fun c => c ∈ columns out)
            (non_predictive_columns ++ ci_columns ++ ["ICI"; "ICI_Class"]%string).
Proof.
  unfold run_script.
  destruct (pipeline ext remove_duplicates df []) as [ws [final|msg|e]] eqn:Hp;
    cbn [ending warnings]; [|discriminate..].
  intros [= ->]. unfold pipeline in Hp.
  apply bind_Continue in Hp as (u & ws0 & H0 & Hp).
  apply validate_Continue in H0 as [_ ->].
  apply bind_Continue in Hp as (df1 & ws1 & H1 & Hp).
  apply lift_Continue in H1 as [_ ->].
  apply bind_Continue in Hp as (df2 & ws2 & H2 & Hp).
  apply mret_Continue in H2 as [-> ->].
  apply bind_Continue in Hp as (df3 & ws3 & H3 & Hp).
  apply bind_Continue in Hp as (df4 & ws4 & H4 & Hp).
  apply bind_Continue in Hp as (df5 & ws5 & H5 & Hp).
  apply bind_Continue in Hp as (df6 & ws6 & H6 & Hp).
  apply bind_Continue in Hp as (df7 & ws7 & H7 & Hp).
  apply bind_Continue in Hp as (u' & ws8 & H8 & Hp).
  apply lift_Continue in Hp as [Hci ->].
  apply lift_Continue in H8 as [_ ->].
  apply lift_Continue in H6 as [H6 ->].
  destruct (imputation_stage_inv _ _ _ _ _ H7) as (-> & Hnp & data & _ & _ & Hout7).
  rewrite (normalize_censored_columns _ _ _ H6), (latest_stage_columns _ _ _ _ _ H5)
    in Hnp.
  assert (Hin4 : forall c, c ∈ non_predictive_columns -> c ∈ columns df4).
  { rewrite Forall_forall in Hnp. exact Hnp. }
  assert (Hyear : "Year"%string ∈ columns df3).
  { destruct (decide ("Year"%string ∈ columns df3)) as [|Hn]; [assumption|].
    exfalso. eapply (period_stage_notin _ _ _ _ "Year" H4); [discriminate|exact Hn|].
    apply Hin4. apply (bool_decide_unpack _). vm_compute. exact I. }
  assert (Hsite : "Site No.1"%string ∈
                  columns (if remove_duplicates then drop_duplicates df1 else df1)).
  { destruct (decide ("Site No.1"%string ∈
                      columns (if remove_duplicates then drop_duplicates df1 else df1)))
      as [|Hn]; [assumption|].
    exfalso. eapply (period_stage_notin _ _ _ _ "Site No.1" H4); [discriminate| |].
    - eapply (sample_count_stage_notin _ _ _ _ "Site No.1" H3); [discriminate|exact Hn].
    - apply Hin4. apply (bool_decide_unpack _). vm_compute. exact I. }
  assert (Hws5 : ws5 = ws4).
  { apply (latest_stage_log _ _ _ _ _ H5); apply Hin4;
      apply (bool_decide_unpack _); vm_compute; exact I. }
  pose proof (period_stage_log _ _ _ _ H4 Hyear) as Hws4.
  pose proof (sample_count_stage_log _ _ _ _ H3 Hsite) as Hws3.
  split; [congruence|].
  apply Forall_app. split.
  - apply Forall_forall. intros c Hc.
    apply (contamination_index_keeps_columns _ _ _ Hci).
    rewrite Hout7. cbn [concat_axis1 columns]. apply elem_of_app. left. exact Hc.
  - apply (contamination_index_columns _ _ Hci).
Qed.

Lemma finished_run_no_warning_witness :
  warnings (run_script plain_externals false sample_frame) = [].
Proof.
  eapply (finished_run_no_warning plain_externals false sample_frame).
  vm_compute. reflexivity.
Defined.

Lemma bind_Stop {A B} (m : script A) (f : A -> script B) ws ws' msg :
  (m ≫= f) ws = (ws', Stop msg) ->
  m ws = (ws', Stop msg)
  \/ exists a ws1, m ws = (ws1, Continue a) /\ f a ws1 = (ws', Stop msg).
Proof.
  unfold mbind, script_bind. destruct (m ws) as [ws1 [a|msg'|e]]; intros H;
    [right; eauto|left; injection H as -> ->; reflexivity|discriminate].
Qed.

Lemma lift_Stop {A} (r : result A) ws ws' msg : lift r ws <> (ws', Stop msg).
Proof. unfold lift. destruct r; discriminate. Qed.

Lemma mret_Stop {A} (x : A) ws ws' msg : (mret x : script A) ws <> (ws', Stop msg).
Proof. discriminate. Qed.

Lemma st_warning_Stop w ws ws' msg : st_warning w ws <> (ws', Stop msg).
Proof. discriminate. Qed.

(** The steps after the validation never stop the script. *)
Ltac never_stop H :=
  repeat match type of H with
         | (_ ≫= _) _ = (_, Stop _) =>
             apply bind_Stop in H as [H|(? & ? & _ & H)]
         | lift _ _ = (_, Stop _) => exact (lift_Stop _ _ _ _ H)
         | mret _ _ = (_, Stop _) => exact (mret_Stop _ _ _ _ H)
         | st_warning _ _ = (_, Stop _) => exact (st_warning_Stop _ _ _ _ H)
         | (if ?b then _ else _) _ = (_, Stop _) => destruct b
         end.

Lemma stages_never_stop ext df ws ws' msg :
  (sample_count_stage df ws = (ws', Stop msg) -> False)
  /\ (period_stage df ws = (ws', Stop msg) -> False)
  /\ (latest_stage ext df ws = (ws', Stop msg) -> False)
  /\ (imputation_stage ext df ws = (ws', Stop msg) -> False).
Proof.
  repeat split; intros H.
  - unfold sample_count_stage in H. never_stop H.
  - unfold period_stage in H. never_stop H.
  - unfold latest_stage in H. never_stop H.
  - unfold imputation_stage in H. never_stop H.
Qed.

(** The script stops (rather than finishing or failing) exactly when a
    critical column is missing, and then with the message that lists the
    missing critical columns. *)
Theorem stopped_iff_missing_critical
    (ext : Externals) (remove_duplicates : bool) (df : DataFrame) (msg : string) :
  ending (run_script ext remove_duplicates df) = Stopped msg
  <-> missing_critical df <> [] /\ msg = schema_message (missing_critical df).
Proof.
  unfold run_script. split.
  - destruct (pipeline ext remove_duplicates df []) as [ws [final|msg'|e]] eqn:Hp;
      cbn [ending]; try discriminate.
    intros [= ->]. unfold pipeline in Hp.
    apply bind_Stop in Hp as [Hp|(u & ws0 & _ & Hp)].
    { unfold validate in Hp. destruct (missing_critical df) as [|c l]; [discriminate|].
      injection Hp as _ <-. split; [discriminate|reflexivity]. }
    exfalso.
    apply bind_Stop in Hp as [Hp|(df1 & ws1 & _ & Hp)]; [exact (lift_Stop _ _ _ _ Hp)|].
    apply bind_Stop in Hp as [Hp|(df2 & ws2 & _ & Hp)]; [exact (mret_Stop _ _ _ _ Hp)|].
    apply bind_Stop in Hp as [Hp|(df3 & ws3 & _ & Hp)];
      [exact (proj1 (stages_never_stop ext _ _ _ _) Hp)|].
    apply bind_Stop in Hp as [Hp|(df4 & ws4 & _ & Hp)];
      [exact (proj1 (proj2 (stages_never_stop ext _ _ _ _)) Hp)|].
    apply bind_Stop in Hp as [Hp|(df5 & ws5 & _ & Hp)];
      [exact (proj1 (proj2 (proj2 (stages_never_stop ext _ _ _ _))) Hp)|].
    apply bind_Stop in Hp as [Hp|(df6 & ws6 & _ & Hp)]; [exact (lift_Stop _ _ _ _ Hp)|].
    apply bind_Stop in Hp as [Hp|(df7 & ws7 & _ & Hp)];
      [exact (proj2 (proj2 (proj2 (stages_never_stop ext _ _ _ _))) Hp)|].
    apply bind_Stop in Hp as [Hp|(u' & ws8 & _ & Hp)].
    + unfold report_stage in Hp. exact (lift_Stop _ _ _ _ Hp).
    + exact (lift_Stop _ _ _ _ Hp).
  - intros [Hm ->]. unfold pipeline, validate, mbind, script_bind.
    destruct (missing_critical df) as [|c l]; [contradiction|]. reflexivity.
Qed.

Lemma stopped_iff_missing_critical_witness :
  ending (run_script plain_externals false frame_without_ph_bd)
  = Stopped (schema_message (missing_critical frame_without_ph_bd)).
Proof.
  apply (stopped_iff_missing_critical plain_externals false frame_without_ph_bd).
  split; [|reflexivity]. vm_compute. discriminate.
Defined.

Lemma drop_duplicates_NoDup df : NoDup (rows df) -> drop_duplicates df = df.
Proof.
  intros Hnd. destruct df as [cols rs]. unfold drop_duplicates. cbn [columns rows] in *.
  f_equal. apply drop_seen_id; [exact Hnd|]. intros x _ H. inversion H.
Qed.

(** When no two rows of the upload are equal, pressing "Remove
    Duplicates" changes nothing about the run. *)
Theorem remove_duplicates_irrelevant (ext : Externals) (df : DataFrame) :
  NoDup (rows df) ->
  run_script ext true df = run_script ext false df.
Proof.
  intros Hnd. unfold run_script. f_equal. unfold pipeline, mbind, script_bind.
  destruct (validate df []) as [ws0 [u|msg|e]]; try reflexivity.
  unfold lift at 1 3. destruct (dropna critical_columns df) as [df1|e] eqn:Hdrop;
    [|reflexivity].
  assert (Hnd1 : NoDup (rows df1)).
  { unfold dropna in Hdrop. destruct (filter _ critical_columns); [|discriminate].
    injection Hdrop as <-. cbn [rows]. apply NoDup_filter, Hnd. }
  unfold mret, script_ret. rewrite (drop_duplicates_NoDup df1 Hnd1). reflexivity.
Qed.

Lemma remove_duplicates_irrelevant_witness :
  run_script plain_externals true sample_frame = run_script plain_externals false sample_frame.
Proof.
  apply (remove_duplicates_irrelevant plain_externals sample_frame).
  apply (bool_decide_unpack _). vm_compute. exact I.
Defined.

(** ** Selecting twice (lines 72-76) *)

Section groupby_idxmax_again.
Context {A K : Type} `{EqDecision K}.
Variable key : A -> option K.
Variable measure : A -> Z.
Variable key_leb : K -> K -> bool.

Lemma select_idxmax_keys l k :
  k ∈ group_keys key key_leb (select_idxmax key measure key_leb l)
  <-> k ∈ group_keys key key_leb l.
Proof.
  rewrite !elem_of_group_keys. split.
  - intros (r & Hr & Hk). apply select_idxmax_elem in Hr as [Hr _]. eauto.
  - intros (x & Hx & Hk).
    destruct (select_idxmax_group key measure key_leb k l x Hx Hk) as (i & r & Hf & _).
    assert (Hr : r ∈ filter (fun y => key y = Some k) (select_idxmax key measure key_leb l))
      by (rewrite Hf; left).
    apply list_elem_of_filter in Hr as [Hkr Hr]. eauto.
Qed.

Lemma select_idxmax_pick l k :
  k ∈ group_keys key key_leb l ->
  (i ← idxmax key measure k (select_idxmax key measure key_leb l);
   select_idxmax key measure key_leb l !! i)
  = (i ← idxmax key measure k l; l !! i).
Proof.
  intros Hk. apply elem_of_group_keys in Hk as (x & Hx & Hkx).
  destruct (select_idxmax_group key measure key_leb k l x Hx Hkx) as (i & r & Hf & Hi & _).
  destruct (pick_idxmax key measure k l x Hx Hkx) as (i0 & r0 & Hpick & _ & Hk0 & _).
  assert (Hr0 : r0 ∈ select_idxmax key measure key_leb l).
  { unfold select_idxmax. apply list_elem_of_omap. exists k. split; [|exact Hpick].
    apply elem_of_group_keys. eauto. }
  destruct (pick_idxmax key measure k _ r0 Hr0 Hk0) as (i1 & r1 & Hpick1 & Hi1 & Hk1 & _).
  rewrite Hpick1, Hpick. f_equal.
  assert (H1 : r1 ∈ filter (fun y => key y = Some k) (select_idxmax key measure key_leb l)).
  { apply list_elem_of_filter. split; [exact Hk1|]. eapply list_elem_of_lookup_2, Hi1. }
  assert (H0 : r0 ∈ filter (fun y => key y = Some k) (select_idxmax key measure key_leb l)).
  { apply list_elem_of_filter. auto. }
  rewrite Hf in H1, H0. apply list_elem_of_singleton in H1, H0. congruence.
Qed.

Lemma select_idxmax_again l :
  select_idxmax key measure key_leb (select_idxmax key measure key_leb l)
  ≡ₚ select_idxmax key measure key_leb l.
Proof.
  set (l' := select_idxmax key measure key_leb l).
  assert (Hperm : group_keys key key_leb l' ≡ₚ group_keys key key_leb l).
  { apply NoDup_Permutation; [apply NoDup_group_keys..|].
    intros k. apply select_idxmax_keys. }
  unfold select_idxmax at 1. fold l'.
  rewrite (list_omap_ext _ (fun k => i ← idxmax key measure k l; l !! i)
             (group_keys key key_leb l') (group_keys key key_leb l')).
  - rewrite Hperm. reflexivity.
  - apply Forall2_same_length_lookup. split; [reflexivity|].
    intros i k k' Hk Hk'. rewrite Hk in Hk'. injection Hk' as <-.
    apply select_idxmax_pick, select_idxmax_keys. eapply list_elem_of_lookup_2, Hk.
Qed.

End groupby_idxmax_again.

(** Selecting the latest samples of an already selected frame succeeds
    and returns the same rows, possibly in another order. *)
Theorem keep_latest_again
    (leb : value * value -> value * value -> bool) (df out : DataFrame) :
  keep_latest leb df = Ok out ->
  exists out',
    keep_latest leb out = Ok out'
    /\ columns out' = columns out
    /\ rows out' ≡ₚ rows out.
Proof.
  unfold keep_latest. case_bool_decide as Hc; [|discriminate].
  destruct (forallb is_int (get_column df "Sample Count")) eqn:Hint; [|discriminate].
  intros [= <-]. cbn [columns rows]. rewrite bool_decide_eq_true_2 by exact Hc.
  assert (Hint' : forallb is_int
            (get_column {| columns := columns df;
                           rows := select_idxmax site_period sample_count leb (rows df) |}
                        "Sample Count") = true).
  { rewrite forallb_forall in Hint. apply forallb_forall. intros v Hv. apply Hint.
    apply list_elem_of_In in Hv. apply list_elem_of_In. unfold get_column in *.
    cbn [rows] in Hv. apply list_elem_of_fmap in Hv as (r & -> & Hr).
    apply list_elem_of_fmap. exists r. split; [reflexivity|].
    eapply select_idxmax_elem, Hr. }
  rewrite Hint'. eexists. split; [reflexivity|]. cbn [columns rows].
  split; [reflexivity|]. apply select_idxmax_again.
Qed.

Lemma keep_latest_again_witness :
  exists out',
    keep_latest (key_leb plain_externals)
      {| columns := columns tied_frame;
         rows := [ counted_row "A7-02" (VInt 7) 2 "1995-2000";
                   counted_row "A9-01" (VInt 9) 1 "Unknown" ] |} = Ok out'
    /\ columns out' = columns tied_frame
    /\ rows out' ≡ₚ [ counted_row "A7-02" (VInt 7) 2 "1995-2000";
                      counted_row "A9-01" (VInt 9) 1 "Unknown" ].
Proof.
  apply (keep_latest_again (key_leb plain_externals) tied_frame).
  vm_compute. reflexivity.
Defined.
